(** * Slash-command library: option validation, dispatch and command loading

    A shallow embedding of [src/SlashCommandBase.ts] and
    [src/SlashasaurusClient.ts].

    Conventions of the embedding.
    - JavaScript values are the inductive [Value]; [undefined] and [null]
      are distinct constructors, as [value === null] distinguishes them.
    - A call that may throw yields a [Result]; [await] of a rejected promise
      is a throw, so [async] functions are modelled by their awaited outcome.
    - Effectful code lives in [Eff]: an outcome together with the sequence
      of observable calls it made ([Event]).  Every invocation of a
      validator, a transformer or a run handler is recorded there by the
      embedding, which is what statements such as "the validator is not
      invoked" are about.
    - Validators and transformers are supplied by the application; they are
      modelled by their outcome on each argument.
    - A plain object used as a map from names is a [JSObject]: its own
      properties and its prototype, with [Object.prototype] as the language
      defines it.
    - Calls to the optional logger do not influence control flow and are
      left out. *)

From stdpp Require Import base strings gmap list.
From Stdlib Require Import ZArith Ascii.

Local Open Scope string_scope.
Local Open Scope list_scope.
Local Open Scope stdpp_scope.

(** ** Values, exceptions, outcomes *)

Inductive Value : Type :=
| VUndefined
| VNull
| VBool (b : bool)
| VNumber (n : Z)
| VBigInt (n : Z)
| VString (s : string)
| VObject (ref : nat).

(** [typeof v], as far as the source inspects it. *)
Inductive TypeOf := TyUndefined | TyObject | TyBoolean | TyNumber | TyBigint | TyString.

Definition typeof (v : Value) : TypeOf :=
  match v with
  | VUndefined => TyUndefined
  | VNull => TyObject
  | VBool _ => TyBoolean
  | VNumber _ => TyNumber
  | VBigInt _ => TyBigint
  | VString _ => TyString
  | VObject _ => TyObject
  end.

(** Thrown values.  [ValidationError] is the class of [CustomErrors.ts];
    [e instanceof ValidationError] is a match on the constructor. *)
Inductive Exn : Type :=
| Error (msg : string)
| ValidationError (msg : string)
| TypeError (msg : string).

Inductive Result (A : Type) : Type :=
| Returned (a : A)
| Thrown (e : Exn).
Arguments Returned {A} a.
Arguments Thrown {A} e.

(** [a ?? b] on values. *)
Definition nullish (v : Value) : bool :=
  match v with VUndefined | VNull => true | _ => false end.

(** ** Plain objects *)

(** What an object inherits from: [Object.prototype] for an object literal,
    [null], or an object that reached the program as a value. *)
Inductive Prototype :=
| ObjectPrototype
| NullPrototype
| ForeignPrototype (ref : nat).

(** An object literal and what assignments make of it: the own properties
    (all of them writable data properties, as assignment creates them) and
    the prototype. *)
Record JSObject := {
  own : gmap string Value;
  proto : Prototype
}.

(** [{}] *)
#[global] Instance JSObject_empty : Empty JSObject :=
  {| own := ∅; proto := ObjectPrototype |}.

(** Creating or updating the own property [name]. *)
Definition define_own (name : string) (value : Value) (o : JSObject)
  : JSObject :=
  {| own := <[name := value]> (own o); proto := proto o |}.

(** The setter of the accessor [Object.prototype.__proto__], called on [o]:
    an object or [null] becomes the prototype of [o], any other value is
    ignored.  No own property is created. *)
Definition set_prototype (value : Value) (o : JSObject) : JSObject :=
  match value with
  | VNull => {| own := own o; proto := NullPrototype |}
  | VObject ref => {| own := own o; proto := ForeignPrototype ref |}
  | _ => o
  end.

(** ** Observable calls *)

Inductive Event : Type :=
| EvValidator (name : string) (value : Value)
    (* validatorsMap.get(name)(interaction, value) *)
| EvTransformer (name : string) (value : Value)
    (* transformersMap.get(name)(value) *)
| EvRun (options : JSObject)
    (* command.run(interaction, client, options) *)
| EvAutocomplete (focusedName : string) (focusedValue : Value)
    (* command.autocomplete(interaction, name, value, client, options) *)
| EvReplyToInteraction (content : string) (flags : Z)
    (* connector.replyToInteraction(interaction, {content, flags}) *)
| EvInteractionReply (content : string) (ephemeral : bool)
    (* interaction.reply({content, ephemeral}) *)
| EvInteractionRespond (choices : list (string * Value)).
    (* interaction.respond([{name, value}, ...]) *)

(** ** The effect monad: outcome and trace *)

Definition Eff (A : Type) : Type := Result A * list Event.

Definition eff_ret {A} (a : A) : Eff A := (Returned a, []).
Definition eff_throw {A} (e : Exn) : Eff A := (Thrown e, []).
Definition eff_tell (ev : Event) : Eff unit := (Returned tt, [ev]).
Definition eff_lift {A} (r : Result A) : Eff A := (r, []).

Definition eff_bind {A B} (m : Eff A) (k : A -> Eff B) : Eff B :=
  match m with
  | (Returned a, t) => let '(r, t') := k a in (r, t ++ t')
  | (Thrown e, t) => (Thrown e, t)
  end.

(** [Eff] with stdpp's monad notations: [x ← m; k] and [m;; k]. *)
#[global] Instance eff_mret : MRet Eff := @eff_ret.
#[global] Instance eff_mbind : MBind Eff := fun A B k m => eff_bind m k.

Definition outcome {A} (m : Eff A) : Result A := fst m.
Definition trace {A} (m : Eff A) : list Event := snd m.

(** ** Interactions *)

(** The typed getters of [interaction.options] (discord.js). *)
Inductive Getter :=
| getString | getInteger | getBoolean | getMember | getUser | getChannel
| getRole | getMentionable | getNumber | getAttachment.

(** An inbound interaction.  The option resolver belongs to the platform
    library: it is a parameter of the interaction.  A getter returns the
    value, returns [null] when the option is absent, or throws (a required
    option that is missing, a type mismatch).

    The objects the platform library and the application hand out are
    opaque ([VObject ref]).  Once such an object is the prototype of a
    receiver, an assignment [receiver[name] = value] to a name the receiver
    does not own is decided by that object and what it inherits: the own
    property is created, an inherited setter runs, or the assignment throws
    (an inherited accessor without setter or read-only member, in the strict
    code of a class body).  [inherited_set ref name value receiver] is that
    outcome; like the option resolver it is a parameter. *)
Record Interaction := {
  isCommandInteraction : bool;   (* interaction instanceof CommandInteraction *)
  options_get : Getter -> string -> bool -> Result Value;
  inherited_set : nat -> string -> Value -> JSObject -> Result JSObject
}.

(** [o[name] = value] for an object [o] made by an object literal.  An own
    property is updated.  Otherwise the prototype chain decides: on
    [Object.prototype] every member is a writable data property, so the own
    property is created, except for the accessor [__proto__], whose setter
    is called instead; without prototype the own property is created. *)
Definition object_set (interaction : Interaction) (name : string)
    (value : Value) (o : JSObject) : Result JSObject :=
  match own o !! name with
  | Some _ => Returned (define_own name value o)
  | None =>
      match proto o with
      | ObjectPrototype =>
          if String.eqb name "__proto__"
          then Returned (set_prototype value o)
          else Returned (define_own name value o)
      | NullPrototype => Returned (define_own name value o)
      | ForeignPrototype ref => inherited_set interaction ref name value o
      end
  end.

(** ** Option and command descriptors *)

(** [ApplicationCommandOptionData['type']]: the string tag and the numeric
    enum member of a type take the same branch everywhere in the source. *)
Inductive OptionType :=
| STRING | INTEGER | BOOLEAN | USER | CHANNEL | ROLE | MENTIONABLE | NUMBER
| ATTACHMENT.

Definition Validator : Type := Interaction -> Value -> Result Value.
Definition Transformer : Type := Value -> Result Value.
Definition OptionAutocomplete : Type := Interaction -> Value -> Eff unit.

(** An optional member is [None] when the key is not [in] the object. *)
Record OptionData := {
  opt_name : string;
  opt_type : OptionType;
  opt_required : option bool;
  opt_validator : option Validator;
  opt_transformer : option Transformer;
  opt_onAutocomplete : option OptionAutocomplete
}.

Record ChatCommandOptions := {
  info_name : string;
  info_description : string;
  info_options : list OptionData
}.

Definition CommandRunFunction : Type :=
  Interaction -> JSObject -> Eff unit.
Definition AutocompleteFunction : Type :=
  Interaction -> string -> Value -> JSObject -> Eff unit.

(** The [handlers] argument of the constructor; a member is [None] when the
    object has no such key (its value reads as [undefined]). *)
Record Handlers := {
  handlers_run : option CommandRunFunction;
  handlers_autocomplete : option AutocompleteFunction
}.

(** A [SlashCommand] object.  [run] and [autocomplete] are what the property
    lookup [command.run] / [command.autocomplete] yields: [None] is
    [undefined]. *)
Record SlashCommand := {
  commandInfo : ChatCommandOptions;
  validatorsMap : gmap string Validator;
  transformersMap : gmap string Transformer;
  autocompleteMap : gmap string OptionAutocomplete;
  run : option CommandRunFunction;
  autocomplete : option AutocompleteFunction
}.

(** The prototype method [SlashCommand.prototype.run]. *)
Definition default_run : CommandRunFunction :=
  fun _interaction _options =>
    eff_tell (EvInteractionReply "This command is not implemented yet" true).

(** The prototype method [SlashCommand.prototype.autocomplete]. *)
Definition default_autocomplete : AutocompleteFunction :=
  fun _interaction _focusedName _focusedValue _options =>
    eff_tell (EvInteractionRespond
                [("This interaction isn't implemented yet", VString "error")]).

Definition set_opt {V} (k : string) (o : option V) (m : gmap string V)
  : gmap string V :=
  match o with Some v => <[k := v]> m | None => m end.

(** [new SlashCommand(commandInfo, handlers)]. *)
Definition new_SlashCommand (info : ChatCommandOptions) (handlers : Handlers)
  : SlashCommand :=
  let maps :=
    fold_left
      (fun '(vm, tm, am) option =>
         (set_opt (opt_name option) (opt_validator option) vm,
          set_opt (opt_name option) (opt_transformer option) tm,
          set_opt (opt_name option) (opt_onAutocomplete option) am))
      (info_options info) (∅, ∅, ∅) in
  {| commandInfo := info;
     validatorsMap := maps.1.1;
     transformersMap := maps.1.2;
     autocompleteMap := maps.2;
     (* this.run = handlers.run; *)
     run := handlers_run handlers;
     (* if ('autocomplete' in handlers) this.autocomplete = handlers.autocomplete; *)
     autocomplete :=
       match handlers_autocomplete handlers with
       | Some f => Some f
       | None => Some default_autocomplete
       end |}.

(** ** Option extraction *)

Definition getDataForType (interaction : Interaction) (type : OptionType)
    (name : string) (required : bool) : Result Value :=
  match type with
  | STRING => options_get interaction getString name required
  | INTEGER => options_get interaction getInteger name required
  | BOOLEAN => options_get interaction getBoolean name required
  | USER =>
      match options_get interaction getMember name required with
      | Thrown e => Thrown e
      | Returned m =>
          if nullish m then options_get interaction getUser name required
          else Returned m
      end
  | CHANNEL => options_get interaction getChannel name required
  | ROLE => options_get interaction getRole name required
  | MENTIONABLE => options_get interaction getMentionable name required
  | NUMBER => options_get interaction getNumber name required
  | ATTACHMENT => options_get interaction getAttachment name required
  end.

(** ** Validation and transformation *)

(** What [validateAndTransformOptions] resolves to: the [string[]] of errors
    or the values object ([Array.isArray] tells them apart). *)
Inductive Validated :=
| Errors (errors : list string)
| Values (values : JSObject).

Definition is_string (v : Value) : option string :=
  match v with VString s => Some s | _ => None end.

Section validate.
Context (this : SlashCommand) (interaction : Interaction)
        (skipRequiredCheck : bool).

(** The [try { ... } catch (e) { ... }] block around the validator call:
    yields the updated [errors] and [isValid]. *)
Definition run_validator (option : OptionData) (value : Value)
    (errors : list string) : Eff (list string * bool) :=
  match validatorsMap this !! opt_name option with
  | Some validate =>
      if isCommandInteraction interaction then
        eff_tell (EvValidator (opt_name option) value);;
        match validate interaction value with
        | Returned validateResult =>
            match is_string validateResult with
            | Some msg => eff_ret (errors ++ [msg], false)
            | None => eff_ret (errors, true)
            end
        | Thrown (ValidationError msg) => eff_ret (errors ++ [msg], true)
        | Thrown e => eff_throw e
        end
      else eff_ret (errors, true)
  | None => eff_ret (errors, true)
  end.

(** One iteration of the [for ... of] loop.  The two assignments
    [values[option.name] = ...] are assignments to a plain object. *)
Definition validate_option (option : OptionData)
    (st : list string * JSObject)
  : Eff (list string * JSObject) :=
  let '(errors, values) := st in
  value ← eff_lift
    (getDataForType interaction (opt_type option) (opt_name option)
       (if skipRequiredCheck then false
        else default false (opt_required option)));
  match value with
  | VNull =>
      values ← eff_lift (object_set interaction (opt_name option) VNull values);
      eff_ret (errors, values)
  | _ =>
      '(errors, isValid) ← run_validator option value errors;
      if negb isValid then eff_ret (errors, values)
      else
        value ←
          match transformersMap this !! opt_name option with
          | Some transform =>
              eff_tell (EvTransformer (opt_name option) value);;
              eff_lift (transform value)
          | None => eff_ret value
          end;
        values ←
          eff_lift (object_set interaction (opt_name option) value values);
        eff_ret (errors, values)
  end.

Fixpoint validate_loop (options : list OptionData)
    (st : list string * JSObject)
  : Eff (list string * JSObject) :=
  match options with
  | [] => eff_ret st
  | option :: rest =>
      st' ← validate_option option st;
      validate_loop rest st'
  end.

Definition validateAndTransformOptions : Eff Validated :=
  '(errors, values) ←
    validate_loop (info_options (commandInfo this)) ([], ∅);
  if (0 <? length errors)%nat then eff_ret (Errors errors)
  else eff_ret (Values values).
End validate.

(** ** Middleware pipeline *)

(** Modelled from the spec: [MiddlewarePipeline.ts] is not among the
    sources.  A middleware receives the next function of the chain and
    returns a replacement of the same signature; [execute] folds the chain
    around the terminal handler, the first registered middleware outermost,
    and invokes the result with the call arguments. *)
Definition Middleware (H : Type) : Type := H -> H.
Definition Pipeline (H : Type) : Type := list (Middleware H).

Definition pipeline_push {H} (fn : Middleware H) (p : Pipeline H)
  : Pipeline H := p ++ [fn].

Definition pipeline_execute {H} (p : Pipeline H) (base : H) : H :=
  foldr (fun mw next => mw next) base p.

(** Calling the value found under [command.run]: [undefined] is not
    callable. *)
Definition invoke_run (f : option CommandRunFunction) : CommandRunFunction :=
  fun interaction options =>
    match f with
    | Some g => eff_tell (EvRun options);; g interaction options
    | None => eff_throw (TypeError "base is not a function")
    end.

(** ** Wire descriptors *)

(** The named exports [isCommandGroupMetadata] looks at; [None] when the
    module has no such key. *)
Record CommandGroupMetadata := {
  description : option Value;
  descriptionLocalizations : option Value;
  defaultMemberPermissions : option Value;
  dmPermission : option Value
}.

(** The builders of [@discordjs/builders], as the data they are given. *)
Inductive SubcommandBuilder :=
| SlashCommandSubcommandBuilder (info : ChatCommandOptions).

Inductive SubcommandGroupBuilder :=
| SlashCommandSubcommandGroupBuilder (name : string)
    (meta : CommandGroupMetadata) (subcommands : list SubcommandBuilder).

Inductive CommandBuilder :=
| SlashCommandBuilder (info : ChatCommandOptions)
| SlashCommandGroupBuilder (name : string) (meta : CommandGroupMetadata)
    (children : list (SubcommandBuilder + SubcommandGroupBuilder))
| ContextMenuCommandBuilder (name : string) (type : Z).

(** [ApplicationCommandType] *)
Definition ApplicationCommandType_User : Z := 2.
Definition ApplicationCommandType_Message : Z := 3.

Inductive Route :=
| applicationCommands (applicationId : string)
| applicationGuildCommands (applicationId guildId : string).

(** One [rest.put(route, { body })]. *)
Record RestPut := {
  put_route : Route;
  put_body : list CommandBuilder
}.

(** ** The client *)

Record PageState := {
  pageId : string;
  stateString : string;
  messageData : string
}.

Definition StorePageStateFn : Type :=
  string -> string -> string -> string -> Result unit.
Definition GetPageStateFn : Type := string -> Result PageState.

(** The platform side: the part of [Connector] the client uses, and with
    it the answer of the platform to a registration request.
    [rest_put_result token route body] is how the promise of
    [new REST(...).setToken(token).put(route, { body })] settles: it
    resolves, or it rejects (a refused token, a refused body, a network
    failure) and the [await] throws. *)
Record Connector := {
  replyToInteraction : Interaction -> string -> Z -> Result unit;
  getApplicationId : string;
  rest_put_result : option string -> Route -> list CommandBuilder -> Result unit
}.

Record SlashasaurusClientOptions := {
  options_storePageState : option StorePageStateFn;
  options_getPageState : option GetPageStateFn;
  options_pageTtl : option Z;
  options_skipValidationAndTransformationForAutocomplete : option bool
}.

(** Context-menu commands ([ContextMenuBase.ts]): the name under which they
    are registered and their handler. *)
Record ContextMenuCommand := {
  cm_name : string;
  cm_run : Interaction -> Eff unit
}.

Record SlashasaurusClient := {
  commandMap : gmap string SlashCommand;
  userContextMenuMap : gmap string ContextMenuCommand;
  messageContextMenuMap : gmap string ContextMenuCommand;
  skipAutocompleteValidationAndTransformation : bool;
  chatCommandMiddleware : Pipeline CommandRunFunction;
  pageTtl : Z;
  storePageState : StorePageStateFn;
  getPageState : GetPageStateFn;
  connector : Connector
}.

Definition page_functions_missing : string :=
  "You must implement storePageState and getPageState in order to use pages".

Definition defaultPageStore : StorePageStateFn :=
  fun _ _ _ _ => Thrown (Error page_functions_missing).

Definition defaultPageGet : GetPageStateFn :=
  fun _ => Thrown (Error page_functions_missing).

(** [new SlashasaurusClient(connector, options)]. *)
Definition new_SlashasaurusClient (connector : Connector)
    (options : SlashasaurusClientOptions) : SlashasaurusClient :=
  {| commandMap := ∅;
     userContextMenuMap := ∅;
     messageContextMenuMap := ∅;
     skipAutocompleteValidationAndTransformation :=
       default false
         (options_skipValidationAndTransformationForAutocomplete options);
     chatCommandMiddleware := [];
     pageTtl := default 30000%Z (options_pageTtl options);
     storePageState := default defaultPageStore (options_storePageState options);
     getPageState := default defaultPageGet (options_getPageState options);
     connector := connector |}.

Definition useCommandMiddleware (fn : Middleware CommandRunFunction)
    (this : SlashasaurusClient) : SlashasaurusClient :=
  {| commandMap := commandMap this;
     userContextMenuMap := userContextMenuMap this;
     messageContextMenuMap := messageContextMenuMap this;
     skipAutocompleteValidationAndTransformation :=
       skipAutocompleteValidationAndTransformation this;
     chatCommandMiddleware := pipeline_push fn (chatCommandMiddleware this);
     pageTtl := pageTtl this;
     storePageState := storePageState this;
     getPageState := getPageState this;
     connector := connector this |}.

(** ** Dispatch *)

Definition newline : string := String (ascii_of_nat 10) EmptyString.

(** [errors.join('\n')]. *)
Definition join_lines (errors : list string) : string :=
  String.concat newline errors.

(** The message flag [1 << 6] (ephemeral). *)
Definition ephemeral_flag : Z := Z.shiftl 1 6.

(** [handleCommand(name, interaction)].  The call
    [command.validateAndTransformOptions(interaction, this.connector)] passes
    the connector object where the method expects [skipRequiredCheck]; an
    object is truthy. *)
Definition handleCommand (this : SlashasaurusClient) (name : string)
    (interaction : Interaction) : Eff Value :=
  match commandMap this !! name with
  | None => mret (VBool false)
  | Some command =>
      optionsObj ← validateAndTransformOptions command interaction true;
      match optionsObj with
      | Errors errors =>
          eff_tell (EvReplyToInteraction (join_lines errors) ephemeral_flag);;
          eff_lift (replyToInteraction (connector this) interaction
                      (join_lines errors) ephemeral_flag);;
          (* return; *)
          mret VUndefined
      | Values values =>
          pipeline_execute (chatCommandMiddleware this)
            (invoke_run (run command)) interaction values;;
          mret (VBool true)
      end
  end.

(** ** Command files on disk *)

(** What a command file exports by default, seen through the capability
    checks [isChatCommand], [isUserCommand] and [isMessageCommand]
    ([ContextMenuBase.ts]). *)
Inductive DefaultExport :=
| ExportChat (command : SlashCommand)
| ExportUser (command : ContextMenuCommand)
| ExportMessage (command : ContextMenuCommand)
| ExportOther.

(** An imported module; [mod_default] is [None] when [data.default] is
    missing or falsy. *)
Record Module := {
  mod_default : option DefaultExport;
  mod_exports : CommandGroupMetadata
}.

(** A directory entry: [stat(...).isFile()] holds of [File] only. *)
#[warnings="-register-all"] Inductive Entry :=
| File (name : string) (data : Module)
| Folder (name : string) (entries : list Entry).

Definition entry_name (e : Entry) : string :=
  match e with File n _ | Folder n _ => n end.

Definition key_ok (o : option Value) (ok : TypeOf -> bool) : bool :=
  match o with Some v => ok (typeof v) | None => true end.

Definition isCommandGroupMetadata (arg : CommandGroupMetadata) : bool :=
  key_ok (description arg)
    (fun t => match t with TyString => true | _ => false end)
  && key_ok (descriptionLocalizations arg)
    (fun t => match t with TyObject => true | _ => false end)
  && key_ok (defaultMemberPermissions arg)
    (fun t => match t with
              | TyNumber | TyString | TyBigint => true
              | _ => false
              end)
  && key_ok (dmPermission arg)
    (fun t => match t with TyBoolean => true | _ => false end).

Definition default_metadata : CommandGroupMetadata :=
  {| description := Some (VString "Default description");
     descriptionLocalizations := None;
     defaultMemberPermissions := None;
     dmPermission := None |}.

(** *** File-name patterns *)

Definition ends_with (suffix s : string) : bool :=
  let n := String.length s in
  let k := String.length suffix in
  (k <=? n)%nat && String.eqb (String.substring (n - k) k s) suffix.

Definition strip_suffix (suffix s : string) : option string :=
  if ends_with suffix s
  then Some (String.substring 0 (String.length s - String.length suffix) s)
  else None.

Definition last_char (s : string) : option ascii :=
  match String.length s with
  | O => None
  | S n => String.get n s
  end.

(** The characters the regular-expression dot does not match. *)
Definition line_terminator (c : ascii) : bool :=
  (nat_of_ascii c =? 10)%nat || (nat_of_ascii c =? 13)%nat.

(** [/(?<!\.d)(\.js|\.ts)x?$/] *)
Definition JSFileRegex (s : string) : bool :=
  existsb
    (fun ext =>
       match strip_suffix ext s with
       | Some base => negb (ends_with ".d" base)
       | None => false
       end)
    [".js"; ".ts"; ".jsx"; ".tsx"].

(** [/_meta(.js|.ts)x?$/]: the dots are unescaped. *)
Definition MetaFileRegex (s : string) : bool :=
  existsb
    (fun tail =>
       match strip_suffix tail s with
       | Some base =>
           match last_char base with
           | Some c =>
               negb (line_terminator c)
               && ends_with "_meta"
                    (String.substring 0 (String.length base - 1) base)
           | None => false
           end
       | None => false
       end)
    ["js"; "ts"; "jsx"; "tsx"].

(** [path.join] on the paths the loaders build. *)
Definition join (path name : string) : string := path +:+ "/" +:+ name.

(** ** The loader monad: the client being populated and the registration
    calls made so far *)

Record World := {
  client : SlashasaurusClient;
  rest_puts : list RestPut
}.

Definition Loader (A : Type) : Type := World -> Result A * World.

#[global] Instance load_mret : MRet Loader := fun A a w => (Returned a, w).
#[global] Instance load_mbind : MBind Loader := fun A B k m w =>
  match m w with
  | (Returned a, w') => k a w'
  | (Thrown e, w') => (Thrown e, w')
  end.

Definition load_throw {A} (e : Exn) : Loader A := fun w => (Thrown e, w).
Definition load_get : Loader SlashasaurusClient :=
  fun w => (Returned (client w), w).
Definition load_modify (f : SlashasaurusClient -> SlashasaurusClient)
  : Loader unit :=
  fun w => (Returned tt, {| client := f (client w); rest_puts := rest_puts w |}).
(** [await rest.put(route, { body })] with the REST client made from
    [token]: the request is made, then its outcome is awaited. *)
Definition rest_put (token : option string) (route : Route)
    (body : list CommandBuilder) : Loader unit :=
  fun w =>
    (rest_put_result (connector (client w)) token route body,
     {| client := client w;
        rest_puts := rest_puts w ++ [{| put_route := route; put_body := body |}] |}).

(** A [for ... of] loop with local variables [s]. *)
Fixpoint for_of {A S} (l : list A) (body : S -> A -> Loader S) (s : S)
  : Loader S :=
  match l with
  | [] => mret s
  | x :: rest => s' ← body s x; for_of rest body s'
  end.

Definition set_commandMap (name : string) (command : SlashCommand)
    (this : SlashasaurusClient) : SlashasaurusClient :=
  {| commandMap := <[name := command]> (commandMap this);
     userContextMenuMap := userContextMenuMap this;
     messageContextMenuMap := messageContextMenuMap this;
     skipAutocompleteValidationAndTransformation :=
       skipAutocompleteValidationAndTransformation this;
     chatCommandMiddleware := chatCommandMiddleware this;
     pageTtl := pageTtl this;
     storePageState := storePageState this;
     getPageState := getPageState this;
     connector := connector this |}.

Definition set_userContextMenuMap (name : string)
    (command : ContextMenuCommand) (this : SlashasaurusClient)
  : SlashasaurusClient :=
  {| commandMap := commandMap this;
     userContextMenuMap := <[name := command]> (userContextMenuMap this);
     messageContextMenuMap := messageContextMenuMap this;
     skipAutocompleteValidationAndTransformation :=
       skipAutocompleteValidationAndTransformation this;
     chatCommandMiddleware := chatCommandMiddleware this;
     pageTtl := pageTtl this;
     storePageState := storePageState this;
     getPageState := getPageState this;
     connector := connector this |}.

Definition set_messageContextMenuMap (name : string)
    (command : ContextMenuCommand) (this : SlashasaurusClient)
  : SlashasaurusClient :=
  {| commandMap := commandMap this;
     userContextMenuMap := userContextMenuMap this;
     messageContextMenuMap := <[name := command]> (messageContextMenuMap this);
     skipAutocompleteValidationAndTransformation :=
       skipAutocompleteValidationAndTransformation this;
     chatCommandMiddleware := chatCommandMiddleware this;
     pageTtl := pageTtl this;
     storePageState := storePageState this;
     getPageState := getPageState this;
     connector := connector this |}.

(** ** Command loading *)

Definition no_default_export {A} (file : string) : Loader A :=
  load_throw
    (Error ("Expected a default export in file " +:+ file
            +:+ " but didn't find one")).

Definition wrong_default_export {A} (file kind : string) : Loader A :=
  load_throw
    (Error ("Expected the default export in file " +:+ file
            +:+ " to be a " +:+ kind)).

Definition folder_in_context_menu {A} (filePath : string) : Loader A :=
  load_throw
    (Error ("Found folder at " +:+ filePath
            +:+ ", context menu commands cannot have subcommands")).

Definition duplicate_command_name {A} (name : string) : Loader A :=
  load_throw (Error ("Duplicate command name " +:+ name)).

Definition loadUserCommands (path : string) (topLevel : list Entry)
  : Loader (list CommandBuilder) :=
  for_of topLevel
    (fun commandData folderOrFile =>
       match folderOrFile with
       | File name data =>
           if JSFileRegex name then
             match mod_default data with
             | None => no_default_export (join path name)
             | Some (ExportUser command) =>
                 load_modify (set_userContextMenuMap (cm_name command) command);;
                 mret (commandData
                       ++ [ContextMenuCommandBuilder (cm_name command)
                             ApplicationCommandType_User])
             | Some _ => wrong_default_export (join path name) "UserCommand"
             end
           else mret commandData
       | Folder name _ => folder_in_context_menu (join path name)
       end)
    [].

Definition loadMessageCommands (path : string) (topLevel : list Entry)
  : Loader (list CommandBuilder) :=
  for_of topLevel
    (fun commandData folderOrFile =>
       match folderOrFile with
       | File name data =>
           if JSFileRegex name then
             match mod_default data with
             | None => no_default_export (join path name)
             | Some (ExportMessage command) =>
                 load_modify
                   (set_messageContextMenuMap (cm_name command) command);;
                 mret (commandData
                       ++ [ContextMenuCommandBuilder (cm_name command)
                             ApplicationCommandType_Message])
             | Some _ => wrong_default_export (join path name) "MessageCommand"
             end
           else mret commandData
       | Folder name _ => folder_in_context_menu (join path name)
       end)
    [].

(** The steps shared by the three chat loaders once a command file has been
    imported: the capability check, the duplicate check on [mapName] and the
    insertion into [commandMap]. *)
Definition add_chat_command (file : string) (prefix : string) (data : Module)
  : Loader SlashCommand :=
  match mod_default data with
  | None => no_default_export file
  | Some (ExportChat command) =>
      let mapName := prefix +:+ info_name (commandInfo command) in
      this ← load_get;
      match commandMap this !! mapName with
      | Some _ => duplicate_command_name mapName
      | None =>
          load_modify (set_commandMap mapName command);;
          mret command
      end
  | Some _ => wrong_default_export file "SlashCommand"
  end.

Definition loadSubFolderLevelTwo (path name parentName : string)
    (topLevel : list Entry) : Loader SubcommandGroupBuilder :=
  '(metaData, commandData) ←
    for_of topLevel
      (fun '(metaData, commandData) folderOrFile =>
         match folderOrFile with
         | File file data =>
             if MetaFileRegex file then
               mret (if isCommandGroupMetadata (mod_exports data)
                     then mod_exports data else metaData,
                     commandData)
             else if JSFileRegex file then
               command ←
                 add_chat_command (join path file)
                   (parentName +:+ "." +:+ name +:+ ".") data;
               mret (metaData,
                     commandData
                     ++ [SlashCommandSubcommandBuilder (commandInfo command)])
             else mret (metaData, commandData)
         | Folder _ _ => mret (metaData, commandData)
         end)
      (default_metadata, []);
  mret (SlashCommandSubcommandGroupBuilder name metaData commandData).

Definition loadSubFolderLevelOne (path name : string) (topLevel : list Entry)
  : Loader CommandBuilder :=
  '(metaData, commandData) ←
    for_of topLevel
      (fun '(metaData, commandData) folderOrFile =>
         match folderOrFile with
         | File file data =>
             if MetaFileRegex file then
               mret (if isCommandGroupMetadata (mod_exports data)
                     then mod_exports data else metaData,
                     commandData)
             else if JSFileRegex file then
               command ←
                 add_chat_command (join path file) (name +:+ ".") data;
               mret (metaData,
                     commandData
                     ++ [inl (SlashCommandSubcommandBuilder
                                (commandInfo command))])
             else mret (metaData, commandData)
         | Folder folder entries =>
             group ←
               loadSubFolderLevelTwo (join path folder) folder name entries;
             mret (metaData, commandData ++ [inr group])
         end)
      (default_metadata, []);
  mret (SlashCommandGroupBuilder name metaData commandData).

Definition loadTopLevelCommands (path : string) (topLevel : list Entry)
  : Loader (list CommandBuilder) :=
  for_of topLevel
    (fun commandData folderOrFile =>
       match folderOrFile with
       | File file data =>
           if JSFileRegex file then
             command ← add_chat_command (join path file) "" data;
             mret (commandData ++ [SlashCommandBuilder (commandInfo command)])
           else mret commandData
       | Folder folder entries =>
           builder ← loadSubFolderLevelOne (join path folder) folder entries;
           mret (commandData ++ [builder])
       end)
    [].

(** [readdir(path)] of something that is not a directory. *)
Definition readdir (path : string) (e : Entry) : Loader (list Entry) :=
  match e with
  | Folder _ entries => mret entries
  | File _ _ =>
      load_throw (Error ("ENOTDIR: not a directory, scandir " +:+ path))
  end.

(** The traversal shared by [registerCommandsFrom] and
    [registerGuildCommandsFrom]. *)
Definition load_command_folders (folderPath : string)
    (topLevelFolders : list Entry) : Loader (list CommandBuilder) :=
  for_of topLevelFolders
    (fun commandData folder =>
       let folderName := entry_name folder in
       if String.eqb folderName "chat" then
         entries ← readdir (join folderPath folderName) folder;
         more ← loadTopLevelCommands (join folderPath folderName) entries;
         mret (commandData ++ more)
       else if String.eqb folderName "message" then
         entries ← readdir (join folderPath folderName) folder;
         more ← loadMessageCommands (join folderPath folderName) entries;
         mret (commandData ++ more)
       else if String.eqb folderName "user" then
         entries ← readdir (join folderPath folderName) folder;
         more ← loadUserCommands (join folderPath folderName) entries;
         mret (commandData ++ more)
       else mret commandData)
    [].

(** A token is truthy when it is given and not the empty string. *)
Definition truthy_token (token : option string) : bool :=
  match token with
  | Some t => negb (String.eqb t "")
  | None => false
  end.

Definition registerCommandsFrom (folderPath : string)
    (topLevelFolders : list Entry) (register : bool) (token : option string)
  : Loader unit :=
  commandData ← load_command_folders folderPath topLevelFolders;
  if register && truthy_token token then
    this ← load_get;
    rest_put token (applicationCommands (getApplicationId (connector this)))
      commandData
  else mret tt.

Definition registerGuildCommandsFrom (folderPath : string)
    (topLevelFolders : list Entry) (guildId : string) (register : bool)
    (token : option string) : Loader unit :=
  commandData ← load_command_folders folderPath topLevelFolders;
  if register && truthy_token token then
    this ← load_get;
    rest_put token
      (applicationGuildCommands (getApplicationId (connector this)) guildId)
      commandData
  else mret tt.


(** ** Context-menu dispatch *)

Definition ContextMenuHandler : Type := Interaction -> Eff unit.

(** [handleContextMenu(name, type, interaction)].  The client record of
    this development carries the chat pipeline only; the context-menu
    pipeline [this.contextMenuMiddleware] is passed alongside.  The promise
    of [execute] is not awaited: the calls of the pipeline are made, and
    what it throws is lost with the promise. *)
Definition handleContextMenu (this : SlashasaurusClient)
    (contextMenuMiddleware : Pipeline ContextMenuHandler) (name : string)
    (type : Z) (interaction : Interaction) : Eff Value :=
  match (if (type =? 2)%Z then messageContextMenuMap this !! name
         else userContextMenuMap this !! name) with
  | None => mret (VBool false)
  | Some command =>
      (Returned (VBool true),
       trace (pipeline_execute contextMenuMiddleware (cm_run command)
                interaction))
  end.

(** ** Pages and modal templates *)

(** The double quote character, as a string. *)
Definition dquote : string := String (ascii_of_nat 34) EmptyString.

Section pages.
(** [DeserializeStateFn], the class [TemplateModal]'s handler and
    [DEFAULT_PAGE_ID] come from [Page.ts] and [TemplateModal.ts]. *)
Context (DeserializeStateFn ModalHandler : Type) (DEFAULT_PAGE_ID : string).

(** A page class, as far as the loader reads its static members. *)
Record PageClass := {
  page_pageId : string;
  page_deserializeState : option DeserializeStateFn
}.

Record PageMapStorage := {
  page : PageClass;
  deserialize : DeserializeStateFn
}.

Record TemplateModal := {
  customId : string;
  handler : ModalHandler
}.

(** A default export of the pages directory, through [isPage]. *)
Inductive PageExport :=
| ExportPage (p : PageClass)
| ExportNoPage.

(** A default export of the modals directory, through
    [instanceof TemplateModal]. *)
Inductive ModalExport :=
| ExportModal (m : TemplateModal)
| ExportNoModal.

(** An imported file: the default export ([None] when missing or falsy)
    and the export named [deserializeState]. *)
Record FlatModule (E : Type) := {
  flat_default : option E;
  flat_deserializeState : option DeserializeStateFn
}.

Inductive FlatEntry (E : Type) :=
| FlatFile (name : string) (data : FlatModule E)
| FlatFolder (name : string).

(** [registerPagesFrom(path)]: the page map is threaded through the loop
    and keeps what was inserted before an exception.  The assignment
    [page._client = this] writes to the page class and is not part of the
    map. *)
Fixpoint registerPagesFrom (path : string)
    (topLevel : list (FlatEntry PageExport))
    (pageMap : gmap string PageMapStorage)
  : Result unit * gmap string PageMapStorage :=
  match topLevel with
  | [] => (Returned tt, pageMap)
  | FlatFile _ folderOrFile data :: rest =>
      if JSFileRegex folderOrFile then
        match flat_default _ data with
        | None =>
            (Thrown (Error ("Expected a default export in file "
                            +:+ join path folderOrFile
                            +:+ " but didn't find one")), pageMap)
        | Some ExportNoPage =>
            (Thrown (Error ("Expected the default export in file "
                            +:+ join path folderOrFile
                            +:+ " to be a Page")), pageMap)
        | Some (ExportPage p) =>
            if String.eqb (page_pageId p) DEFAULT_PAGE_ID then
              (Thrown (Error ("The page exported in "
                              +:+ join path folderOrFile
                              +:+ " does not have a static pageId set.")),
               pageMap)
            else
              match (match page_deserializeState p with
                     | Some d => Some d
                     | None => flat_deserializeState _ data
                     end) with
              | None =>
                  (Thrown (Error ("Expected the page to have a static "
                                  +:+ "deserializeState function or an "
                                  +:+ "export named " +:+ dquote
                                  +:+ "deserializeState" +:+ dquote
                                  +:+ " in file " +:+ join path folderOrFile
                                  +:+ " but didn't find one")), pageMap)
              | Some d =>
                  registerPagesFrom path rest
                    (<[page_pageId p := {| page := p; deserialize := d |}]>
                       pageMap)
              end
        end
      else registerPagesFrom path rest pageMap
  | FlatFolder _ folderOrFile :: _ =>
      (Thrown (Error ("Found folder in pages directory "
                      +:+ join path folderOrFile)), pageMap)
  end.

(** [registerModalsFrom(path)]. *)
Fixpoint registerModalsFrom (path : string)
    (topLevel : list (FlatEntry ModalExport))
    (modalMap : gmap string TemplateModal)
  : Result unit * gmap string TemplateModal :=
  match topLevel with
  | [] => (Returned tt, modalMap)
  | FlatFile _ folderOrFile data :: rest =>
      if JSFileRegex folderOrFile then
        match flat_default _ data with
        | None =>
            (Thrown (Error ("Expected a default export in file "
                            +:+ join path folderOrFile
                            +:+ " but didn't find one")), modalMap)
        | Some ExportNoModal =>
            (Thrown (Error ("Expected the default export in file "
                            +:+ join path folderOrFile
                            +:+ " to be a TemplateModal")), modalMap)
        | Some (ExportModal modal) =>
            registerModalsFrom path rest (<[customId modal := modal]> modalMap)
        end
      else registerModalsFrom path rest modalMap
  | FlatFolder _ folderOrFile :: _ =>
      (Thrown (Error ("Found folder in modals directory "
                      +:+ join path folderOrFile)), modalMap)
  end.
End pages.

(** ** Notions used to state the properties *)

Section notions.
Context (this : SlashCommand) (interaction : Interaction)
        (skipRequiredCheck : bool).

(** The raw value the loop extracts for an option. *)
Definition raw_value (o : OptionData) : Result Value :=
  getDataForType interaction (opt_type o) (opt_name o)
    (if skipRequiredCheck then false else default false (opt_required o)).

(** The loop has processed the options [pre], in this order, without an
    exception: it holds [st] and has made the calls [t]. *)
Definition reaches (pre : list OptionData)
    (st : list string * JSObject) (t : list Event) : Prop :=
  validate_loop this interaction skipRequiredCheck pre ([], ∅)
  = (Returned st, t).

(** Following the spec (§4.2, step 3): the message an option contributes to
    the error list.  A present value is rejected, on a genuine submission,
    when the registered validator returns a string or throws a recognized
    validation error. *)
Definition rejection_message (o : OptionData) : option string :=
  match raw_value o with
  | Returned VNull => None
  | Returned x =>
      match validatorsMap this !! opt_name o with
      | Some validate =>
          if isCommandInteraction interaction then
            match validate interaction x with
            | Returned (VString msg) => Some msg
            | Thrown (ValidationError msg) => Some msg
            | _ => None
            end
          else None
      | None => None
      end
  | Thrown _ => None
  end.

(** Following the spec (§4.2, steps 2 and 4): the entry of an option in the
    values object: [null] when absent, else the extracted value, or what the
    registered transformer makes of it. *)
Definition expected_entry (o : OptionData) : option Value :=
  match raw_value o with
  | Returned VNull => Some VNull
  | Returned x =>
      match transformersMap this !! opt_name o with
      | Some transform =>
          match transform x with
          | Returned y => Some y
          | Thrown _ => None
          end
      | None => Some x
      end
  | Thrown _ => None
  end.
End notions.



Definition is_validator_call (ev : Event) : bool :=
  match ev with EvValidator _ _ => true | _ => false end.

Definition is_transformer_call (ev : Event) : bool :=
  match ev with EvTransformer _ _ => true | _ => false end.

Definition is_run_call (ev : Event) : bool :=
  match ev with EvRun _ => true | _ => false end.

Definition is_validation_error (e : Exn) : bool :=
  match e with ValidationError _ => true | _ => false end.

(** A loading step that makes no registration call. *)
Definition keeps_puts {A} (m : Loader A) : Prop :=
  forall w, rest_puts (m w).2 = rest_puts w.

(** The extensions [JSFileRegex] accepts. *)
Definition source_extensions : list string := [".js"; ".ts"; ".jsx"; ".tsx"].

(** A loading step after which the world is related by [R] to the world
    before it, however the step ends. *)
Definition loader_keeps (R : World -> World -> Prop) {A} (m : Loader A)
  : Prop :=
  forall w, R w (m w).2.

(** Every entry of the chat registry is still there, unchanged. *)
Definition chat_entries_kept (w w' : World) : Prop :=
  forall k c,
    commandMap (client w) !! k = Some c ->
    commandMap (client w') !! k = Some c.

(** The part of the client no loader is meant to touch. *)
Definition settings (this : SlashasaurusClient) :=
  (skipAutocompleteValidationAndTransformation this,
   chatCommandMiddleware this, pageTtl this, storePageState this,
   getPageState this, connector this).

Definition only_chat_changed (w w' : World) : Prop :=
  userContextMenuMap (client w') = userContextMenuMap (client w)
  /\ messageContextMenuMap (client w') = messageContextMenuMap (client w)
  /\ settings (client w') = settings (client w).

Definition only_user_changed (w w' : World) : Prop :=
  commandMap (client w') = commandMap (client w)
  /\ messageContextMenuMap (client w') = messageContextMenuMap (client w)
  /\ settings (client w') = settings (client w).

Definition only_message_changed (w w' : World) : Prop :=
  commandMap (client w') = commandMap (client w)
  /\ userContextMenuMap (client w') = userContextMenuMap (client w)
  /\ settings (client w') = settings (client w).

Definition exported_user (e : DefaultExport) : option ContextMenuCommand :=
  match e with ExportUser c => Some c | _ => None end.

Definition exported_message (e : DefaultExport) : option ContextMenuCommand :=
  match e with ExportMessage c => Some c | _ => None end.


(** The commands of the source files of a context-menu directory, in
    directory order. *)
Definition context_commands
    (select : DefaultExport -> option ContextMenuCommand)
    (entries : list Entry) : list ContextMenuCommand :=
  omap (fun e =>
          match e with
          | File n data =>
              if JSFileRegex n then mod_default data ≫= select else None
          | Folder _ _ => None
          end)
       entries.

(** Registering commands one after the other under their names. *)
Definition insert_all (cs : list ContextMenuCommand)
    (m : gmap string ContextMenuCommand) : gmap string ContextMenuCommand :=
  foldl (fun m c => <[cm_name c := c]> m) m cs.

(** The last command of the list that goes by the name [n]. *)
Definition last_named (n : string) (cs : list ContextMenuCommand)
  : option ContextMenuCommand :=
  last (filter (fun c => cm_name c = n) cs).



Definition settings_kept (w w' : World) : Prop :=
  settings (client w') = settings (client w).

(** An option declaration without its [required] member. *)
Definition without_required (o : OptionData) : OptionData :=
  {| opt_name := opt_name o; opt_type := opt_type o; opt_required := None;
     opt_validator := opt_validator o; opt_transformer := opt_transformer o;
     opt_onAutocomplete := opt_onAutocomplete o |}.

(** A command whose declared options have lost their [required] member. *)
Definition relax_required (c : SlashCommand) : SlashCommand :=
  {| commandInfo :=
       {| info_name := info_name (commandInfo c);
          info_description := info_description (commandInfo c);
          info_options := without_required <$> info_options (commandInfo c) |};
     validatorsMap := validatorsMap c;
     transformersMap := transformersMap c;
     autocompleteMap := autocompleteMap c;
     run := run c;
     autocomplete := autocomplete c |}.

(** What the validator of an option answers on a value, when the loop
    calls it: [None] when it is not called. *)
Definition validator_verdict (this : SlashCommand) (interaction : Interaction)
    (o : OptionData) (x : Value) : option (Result Value) :=
  match validatorsMap this !! opt_name o with
  | Some validate =>
      if isCommandInteraction interaction then Some (validate interaction x)
      else None
  | None => None
  end.

(** The verdicts after which the loop goes on to the transformer. *)
Definition lets_through (verdict : option (Result Value)) : bool :=
  match verdict with
  | None => true
  | Some (Returned r) => match is_string r with Some _ => false | None => true end
  | Some (Thrown e) => is_validation_error e
  end.

(** The calls of one iteration up to the transformer. *)
Definition calls_before_transformer (verdict : option (Result Value))
    (o : OptionData) (x : Value) : list Event :=
  match verdict with
  | Some _ => [EvValidator (opt_name o) x]
  | None => []
  end.

(** The member [sel] of the last option named [n] that has one. *)
Definition last_declared {V} (sel : OptionData -> option V) (n : string)
    (options : list OptionData) : option V :=
  last (omap (fun o => if decide (opt_name o = n) then sel o else None)
          options).

(** The longest prefix of a list whose elements all pass [ok]. *)
Fixpoint passing_prefix {A} (ok : A -> bool) (l : list A) : list A :=
  match l with
  | [] => []
  | x :: rest => if ok x then x :: passing_prefix ok rest else []
  end.

Section page_notions.
Context (DeserializeStateFn ModalHandler : Type) (DEFAULT_PAGE_ID : string).

Local Notation "'PageFile'" :=
  (FlatModule DeserializeStateFn (PageExport DeserializeStateFn)).
Local Notation "'PageEntry'" :=
  (FlatEntry DeserializeStateFn (PageExport DeserializeStateFn)).
Local Notation "'ModalFile'" :=
  (FlatModule DeserializeStateFn (ModalExport ModalHandler)).
Local Notation "'ModalEntry'" :=
  (FlatEntry DeserializeStateFn (ModalExport ModalHandler)).

(** What a source file of the pages directory registers: its page, with
    the static deserializer of the page or else the one the file exports;
    nothing when the file has no page, when the page has the default id or
    when there is no deserializer. *)
Definition page_of_file (data : PageFile)
  : option (PageMapStorage DeserializeStateFn) :=
  match flat_default _ _ data with
  | Some (ExportPage _ p) =>
      if String.eqb (page_pageId _ p) DEFAULT_PAGE_ID then None
      else
        match page_deserializeState _ p with
        | Some d => Some {| page := p; deserialize := d |}
        | None =>
            match flat_deserializeState _ _ data with
            | Some d => Some {| page := p; deserialize := d |}
            | None => None
            end
        end
  | _ => None
  end.

(** The entries the page loader gets past. *)
Definition page_entry_ok (e : PageEntry) : bool :=
  match e with
  | FlatFile _ _ n data =>
      if JSFileRegex n
      then match page_of_file data with Some _ => true | None => false end
      else true
  | FlatFolder _ _ _ => false
  end.

(** The pages of the source files of a list of entries, in order. *)
Definition pages_of (entries : list PageEntry)
  : list (PageMapStorage DeserializeStateFn) :=
  omap (fun e =>
          match e with
          | FlatFile _ _ n data =>
              if JSFileRegex n then page_of_file data else None
          | FlatFolder _ _ _ => None
          end)
       entries.

Definition insert_pages (ps : list (PageMapStorage DeserializeStateFn))
    (m : gmap string (PageMapStorage DeserializeStateFn))
  : gmap string (PageMapStorage DeserializeStateFn) :=
  foldl (fun m s => <[page_pageId _ (page _ s) := s]> m) m ps.

Definition modal_of_file (data : ModalFile)
  : option (TemplateModal ModalHandler) :=
  match flat_default _ _ data with
  | Some (ExportModal _ m) => Some m
  | _ => None
  end.

(** The entries the modal loader gets past. *)
Definition modal_entry_ok (e : ModalEntry) : bool :=
  match e with
  | FlatFile _ _ n data =>
      if JSFileRegex n
      then match modal_of_file data with Some _ => true | None => false end
      else true
  | FlatFolder _ _ _ => false
  end.

Definition modals_of (entries : list ModalEntry)
  : list (TemplateModal ModalHandler) :=
  omap (fun e =>
          match e with
          | FlatFile _ _ n data =>
              if JSFileRegex n then modal_of_file data else None
          | FlatFolder _ _ _ => None
          end)
       entries.

Definition insert_modals (ms : list (TemplateModal ModalHandler))
    (m : gmap string (TemplateModal ModalHandler))
  : gmap string (TemplateModal ModalHandler) :=
  foldl (fun m modal => <[customId _ modal := modal]> m) m ms.
End page_notions.

(** Whether [needle] occurs in [hay]. *)
Fixpoint contains (needle hay : string) : bool :=
  String.prefix needle hay
  || match hay with
     | EmptyString => false
     | String _ rest => contains needle rest
     end.

(** ** Sample commands and interactions *)

Module Sample.

(** A submission of [/signup age:-1 name:bob color:mauve]; every other
    option is absent. *)
Definition submitted (g : Getter) (name : string) (required : bool)
  : Result Value :=
  match g with
  | getInteger =>
      if String.eqb name "age" then Returned (VNumber (-1)) else
      if required then Thrown (TypeError "Required option not found")
      else Returned VNull
  | getString =>
      if String.eqb name "name" then Returned (VString "bob") else
      if String.eqb name "color" then Returned (VString "mauve") else
      if required then Thrown (TypeError "Required option not found")
      else Returned VNull
  | _ =>
      if required then Thrown (TypeError "Required option not found")
      else Returned VNull
  end.

(** Objects whose prototype chain is an ordinary one: nothing between them
    and [Object.prototype] intercepts an assignment. *)
Definition ordinary (ref : nat) (name : string) (value : Value)
    (receiver : JSObject) : Result JSObject :=
  if String.eqb name "__proto__" then Returned (set_prototype value receiver)
  else Returned (define_own name value receiver).

Definition submission : Interaction :=
  {| isCommandInteraction := true; options_get := submitted;
     inherited_set := ordinary |}.

(** The same options seen by an autocomplete request. *)
Definition autocompletion : Interaction :=
  {| isCommandInteraction := false; options_get := submitted;
     inherited_set := ordinary |}.

Definition positive : Validator :=
  fun _ value =>
    match value with
    | VNumber n =>
        if (0 <? n)%Z then Returned (VBool true)
        else Returned (VString "age must be positive")
    | _ => Returned (VBool true)
    end.

Definition accept : Validator := fun _ _ => Returned (VBool true).

Definition known_color : Validator :=
  fun _ value =>
    match value with
    | VString "red" => Returned (VBool true)
    | _ => Returned (VString "unknown color")
    end.

Definition positive_or_throw : Validator :=
  fun _ value =>
    match value with
    | VNumber n =>
        if (0 <? n)%Z then Returned (VBool true)
        else Thrown (ValidationError "age must be positive")
    | _ => Returned (VBool true)
    end.

Definition broken : Validator :=
  fun _ _ => Thrown (TypeError "Cannot read properties of undefined").

Definition double : Transformer :=
  fun value =>
    match value with
    | VNumber n => Returned (VNumber (2 * n))
    | _ => Returned value
    end.

(** A transformer that relies on its validator: it fails on what the
    validator is there to refuse. *)
Definition years_to_days : Transformer :=
  fun value =>
    match value with
    | VNumber n =>
        if (0 <? n)%Z then Returned (VNumber (365 * n))
        else Thrown (Error "negative age")
    | _ => Returned value
    end.

Definition upper_initial : Transformer :=
  fun value =>
    match value with
    | VString "bob" => Returned (VString "Bob")
    | _ => Returned value
    end.

Definition opt (name : string) (type : OptionType)
    (validator : option Validator) (transformer : option Transformer)
  : OptionData :=
  {| opt_name := name; opt_type := type; opt_required := None;
     opt_validator := validator; opt_transformer := transformer;
     opt_onAutocomplete := None |}.

Definition age := opt "age" INTEGER (Some positive) (Some double).
Definition name := opt "name" STRING (Some accept) (Some upper_initial).
Definition color := opt "color" STRING (Some known_color) None.
Definition nick := opt "nick" STRING (Some known_color) (Some upper_initial).

Definition greet : CommandRunFunction :=
  fun _ _ => eff_tell (EvInteractionReply "welcome" false).

Definition command (name : string) (options : list OptionData)
  : SlashCommand :=
  new_SlashCommand
    {| info_name := name; info_description := "sample";
       info_options := options |}
    {| handlers_run := Some greet; handlers_autocomplete := None |}.

(** Three options, two of which are rejected. *)
Definition signup : SlashCommand := command "signup" [age; name; color].

(** Two options that pass and one that is absent. *)
Definition rename : SlashCommand := command "rename" [name; nick].

(** The validator of [age] throws a validation error. *)
Definition enroll : SlashCommand :=
  command "enroll"
    [opt "age" INTEGER (Some positive_or_throw) (Some double); name].

Definition enroll_days : SlashCommand :=
  command "enroll"
    [opt "age" INTEGER (Some positive_or_throw) (Some years_to_days); name].

(** The validator of [name] throws something else. *)
Definition crash : SlashCommand :=
  command "crash" [age; opt "name" STRING (Some broken) None; color].

(** A command constructed without a [run] handler. *)
Definition bare : SlashCommand :=
  new_SlashCommand
    {| info_name := "bare"; info_description := "sample"; info_options := [] |}
    {| handlers_run := None; handlers_autocomplete := None |}.

Definition discord : Connector :=
  {| replyToInteraction := fun _ _ _ => Returned tt;
     getApplicationId := "app";
     rest_put_result := fun _ _ _ => Returned tt |}.

Definition no_options : SlashasaurusClientOptions :=
  {| options_storePageState := None;
     options_getPageState := None;
     options_pageTtl := None;
     options_skipValidationAndTransformationForAutocomplete := None |}.

Definition fresh : SlashasaurusClient :=
  new_SlashasaurusClient discord no_options.

Definition loaded : SlashasaurusClient :=
  set_commandMap "bare" bare
    (set_commandMap "rename" rename
       (set_commandMap "signup" signup fresh)).

Definition world : World := {| client := fresh; rest_puts := [] |}.

Definition no_exports : CommandGroupMetadata :=
  {| description := None; descriptionLocalizations := None;
     defaultMemberPermissions := None; dmPermission := None |}.

Definition exporting (e : DefaultExport) : Module :=
  {| mod_default := Some e; mod_exports := no_exports |}.

Definition ping_first : ContextMenuCommand :=
  {| cm_name := "Ping";
     cm_run := fun _ => eff_tell (EvInteractionReply "first" false) |}.

Definition ping_second : ContextMenuCommand :=
  {| cm_name := "Ping";
     cm_run := fun _ => eff_tell (EvInteractionReply "second" false) |}.

(** [commands/user/a.js] and [commands/user/b.js] both export a user
    command named [Ping]; likewise under [commands/message]. *)
Definition duplicate_context_tree : list Entry :=
  [ Folder "user"
      [ File "a.js" (exporting (ExportUser ping_first));
        File "b.js" (exporting (ExportUser ping_second)) ];
    Folder "message"
      [ File "a.js" (exporting (ExportMessage ping_first));
        File "b.js" (exporting (ExportMessage ping_second)) ] ].

(** [commands/chat/signup.js] and [commands/chat/again.ts] both export a
    chat command named [signup]. *)
Definition duplicate_chat_tree : list Entry :=
  [ Folder "chat"
      [ File "signup.js" (exporting (ExportChat signup));
        File "types.d.ts" (exporting ExportOther);
        File "again.ts" (exporting (ExportChat signup)) ] ].






End Sample.

Module Sample_files.

Definition group_meta : Module :=
  {| mod_default := None;
     mod_exports :=
       {| description := Some (VString "Administration");
          descriptionLocalizations := None;
          defaultMemberPermissions := Some (VNumber 8);
          dmPermission := Some (VBool false) |} |}.

Definition users : list Entry :=
  [ File "enroll.js" (Sample.exporting (ExportChat Sample.enroll)) ].

Definition admin : list Entry :=
  [ File "_meta.js" group_meta;
    File "rename.ts" (Sample.exporting (ExportChat Sample.rename));
    Folder "users" users ].

(** [chat/signup.js], [chat/admin/_meta.js], [chat/admin/rename.ts] and
    [chat/admin/users/enroll.js]. *)
Definition nested_chat : list Entry :=
  [ File "signup.js" (Sample.exporting (ExportChat Sample.signup));
    Folder "admin" admin ].

Definition commands_folder : list Entry :=
  [ Folder "chat" nested_chat;
    Folder "user"
      [ File "ping.js" (Sample.exporting (ExportUser Sample.ping_first)) ] ].

(** A validator that answers [false], and a command that uses it. *)
Definition refuse : Validator := fun _ _ => Returned (VBool false).

Definition guarded : SlashCommand :=
  Sample.command "guarded"
    [Sample.opt "age" INTEGER (Some refuse) (Some Sample.double)].

(** An interaction whose integer getter fails. *)
Definition mistyped : Interaction :=
  {| isCommandInteraction := true;
     options_get := fun g name required =>
       match g with
       | getInteger => Thrown (TypeError "Option is of the wrong type")
       | _ => Sample.submitted g name required
       end;
     inherited_set := Sample.ordinary |}.

(** The option [name] is declared required, and is not supplied. *)
Definition strict : SlashCommand :=
  Sample.command "strict"
    [ {| opt_name := "nick"; opt_type := STRING; opt_required := Some true;
         opt_validator := None; opt_transformer := None;
         opt_onAutocomplete := None |} ].

End Sample_files.

(** * Properties *)

(** ** The effect monad *)

Ltac eff_unfold :=
  unfold mbind, mret, eff_mbind, eff_mret, eff_bind, eff_ret, eff_throw,
    eff_tell, eff_lift in *.

Lemma eff_bind_returned {A B} (m : Eff A) (k : A -> Eff B) b t :
  (m ≫= k) = (Returned b, t) ->
  exists a t1 t2, m = (Returned a, t1) /\ k a = (Returned b, t2) /\ t = t1 ++ t2.
Proof.
  eff_unfold. destruct m as [[a|e] t1]; [|discriminate].
  destruct (k a) as [r t2] eqn:Hk. intros [= -> <-]. by exists a, t1, t2.
Qed.

Lemma eff_bind_step {A B} (m : Eff A) (k : A -> Eff B) a t :
  m = (Returned a, t) ->
  (m ≫= k) = ((k a).1, t ++ (k a).2).
Proof. intros ->. eff_unfold. by destruct (k a). Qed.

Lemma eff_bind_thrown {A B} (m : Eff A) (k : A -> Eff B) e t :
  m = (Thrown e, t) -> (m ≫= k) = (Thrown e, t).
Proof. by intros ->. Qed.

Lemma eff_bind_assoc {A B C} (m : Eff A) (k : A -> Eff B) (h : B -> Eff C) :
  ((m ≫= k) ≫= h) = (m ≫= fun a => k a ≫= h).
Proof.
  eff_unfold. destruct m as [[a|e] t]; [|done].
  destruct (k a) as [[b|e] t1]; [|done].
  destruct (h b) as [r t2]. by rewrite app_assoc.
Qed.

(** ** Validation and transformation *)

Lemma eff_bind_ext {A B} (m : Eff A) (k k' : A -> Eff B) :
  (forall a, k a = k' a) -> (m ≫= k) = (m ≫= k').
Proof. intros H. eff_unfold. destruct m as [[a|e] t]; [|done]. by rewrite H. Qed.

Section validation_facts.
Context (this : SlashCommand) (interaction : Interaction)
        (skipRequiredCheck : bool).

Local Notation "'step'" :=
  (validate_option this interaction skipRequiredCheck).
Local Notation "'loop'" :=
  (validate_loop this interaction skipRequiredCheck).
Local Notation "'raw'" := (raw_value interaction skipRequiredCheck).
Local Notation "'rejection'" :=
  (rejection_message this interaction skipRequiredCheck).
Local Notation "'entry'" :=
  (expected_entry this interaction skipRequiredCheck).

Lemma loop_app pre post st :
  loop (pre ++ post) st = (loop pre st ≫= loop post).
Proof.
  revert st. induction pre as [|o pre IH]; intros st; simpl.
  - eff_unfold. by destruct (loop post st).
  - rewrite eff_bind_assoc. by apply eff_bind_ext.
Qed.

(** On an object that still inherits from [Object.prototype], an
    assignment under any name but [__proto__] creates or updates the own
    property. *)
Lemma object_set_plain n x v :
  n ≠ "__proto__" -> proto v = ObjectPrototype ->
  object_set interaction n x v = Returned (define_own n x v).
Proof.
  intros Hn Hv. unfold object_set. destruct (own v !! n); [done|].
  rewrite Hv. by destruct (String.eqb_spec n "__proto__").
Qed.



(** Case analysis on one iteration: every way the extraction, the
    validator, the transformer and the assignment can turn out.  With the
    hypotheses of [object_set_plain] at hand the assignment is rewritten. *)
Ltac step_cases :=
  unfold validate_option, run_validator, rejection_message, expected_entry;
  unfold raw_value; eff_unfold; simpl;
  repeat (match goal with
    | |- context [getDataForType ?i ?t ?n ?r] =>
        destruct (getDataForType i t n r) as [[]|]
    | |- context [validatorsMap this !! ?n] =>
        destruct (validatorsMap this !! n) as [?validate|]
    | |- context [isCommandInteraction interaction] =>
        destruct (isCommandInteraction interaction)
    | |- context [?f interaction ?x] =>
        is_var f; destruct (f interaction x) as [[]|[]]
    | |- context [transformersMap this !! ?n] =>
        destruct (transformersMap this !! n) as [?transform|]
    | |- context [?g ?x] =>
        is_var g;
        match type of g with Value -> Result Value => idtac end;
        destruct (g x) as [|]
    | |- context [object_set ?i ?n ?x ?v] =>
        first [ rewrite (object_set_plain n x v) by done
              | destruct (object_set i n x v) as [|] ]
    end; simpl);
  intros; simplify_eq.

Lemma step_errors o e v e' v' t :
  step o (e, v) = (Returned (e', v'), t) ->
  e' = e ++ option_list (rejection o).
Proof. step_cases; simpl; by rewrite ?app_nil_r. Qed.







Lemma step_trace o st :
  Forall (fun ev => is_validator_call ev || is_transformer_call ev = true)
    (step o st).2.
Proof. destruct st as [e v]. step_cases; repeat constructor. Qed.

Lemma step_trace_autocomplete o st :
  isCommandInteraction interaction = false ->
  Forall (fun ev => is_validator_call ev = false) (step o st).2.
Proof. destruct st as [e v]. step_cases; repeat constructor. Qed.

(** A string returned by the validator ends the iteration at once: the
    transformer is not called and no value is stored. *)
Lemma step_string_rejection o e v x validate msg :
  raw o = Returned x -> x ≠ VNull ->
  validatorsMap this !! opt_name o = Some validate ->
  isCommandInteraction interaction = true ->
  validate interaction x = Returned (VString msg) ->
  step o (e, v) = (Returned (e ++ [msg], v), [EvValidator (opt_name o) x]).
Proof.
  unfold validate_option, run_validator, raw_value.
  intros -> Hx -> -> Hv. eff_unfold. simpl. rewrite Hv. by destruct x.
Qed.

(** A validator that throws something else than a validation error ends
    the iteration, and the loop, with that exception. *)
Lemma step_validator_throws o e v x validate err :
  raw o = Returned x -> x ≠ VNull ->
  validatorsMap this !! opt_name o = Some validate ->
  isCommandInteraction interaction = true ->
  validate interaction x = Thrown err ->
  is_validation_error err = false ->
  step o (e, v) = (Thrown err, [EvValidator (opt_name o) x]).
Proof.
  unfold validate_option, run_validator, raw_value.
  intros -> Hx -> -> Hv Herr. eff_unfold. simpl. rewrite Hv.
  by destruct x, err.
Qed.

Lemma step_validation_error o e v x validate msg st' t' :
  raw o = Returned x -> x ≠ VNull ->
  validatorsMap this !! opt_name o = Some validate ->
  isCommandInteraction interaction = true ->
  validate interaction x = Thrown (ValidationError msg) ->
  step o (e, v) = (Returned st', t') ->
  st'.1 = e ++ [msg].
Proof.
  intros Hraw Hx Hmap Hcmd Hv Hstep. destruct st' as [e' v'].
  apply step_errors in Hstep. rewrite Hstep. simpl. f_equal.
  unfold rejection_message. rewrite Hraw, Hmap, Hcmd, Hv. by destruct x.
Qed.

Lemma loop_errors l e v e' v' t :
  loop l (e, v) = (Returned (e', v'), t) ->
  e' = e ++ omap rejection l.
Proof.
  revert e v t. induction l as [|o l IH]; intros e v t; simpl.
  - intros [= -> _ _]. by rewrite app_nil_r.
  - intros ([e1 v1] & t1 & t2 & Hstep & Hloop & _)%eff_bind_returned.
    apply step_errors in Hstep. apply IH in Hloop. subst.
    rewrite <-app_assoc. f_equal. by destruct (rejection o).
Qed.





Lemma loop_trace_with (P : Event -> Prop) :
  (forall o st, Forall P (step o st).2) ->
  forall l st, Forall P (loop l st).2.
Proof.
  intros Hstep l. induction l as [|o l IH]; intros st; simpl.
  - constructor.
  - specialize (Hstep o st). eff_unfold.
    destruct (step o st) as [[st'|err] t1]; [|done].
    specialize (IH st'). destruct (loop l st') as [r t2]. simpl in *.
    by apply Forall_app.
Qed.

Lemma validate_trace_with (P : Event -> Prop) :
  (forall o st, Forall P (step o st).2) ->
  Forall P (trace (validateAndTransformOptions this interaction
                     skipRequiredCheck)).
Proof.
  intros Hstep. unfold validateAndTransformOptions, trace.
  pose proof (loop_trace_with P Hstep
                (info_options (commandInfo this)) ([], ∅)) as Hl.
  eff_unfold.
  destruct (loop _ _) as [[[e v]|err] t]; [|done]. simpl in *.
  destruct (0 <? length e)%nat; simpl; by rewrite app_nil_r.
Qed.


Lemma loop_singleton o st : loop [o] st = step o st.
Proof.
  simpl. eff_unfold. destruct (step o st) as [[st'|err] t]; [|done].
  by rewrite app_nil_r.
Qed.

Lemma loop_snoc_returned pre o st0 st t st' t' :
  loop pre st0 = (Returned st, t) ->
  step o st = (Returned st', t') ->
  loop (pre ++ [o]) st0 = (Returned st', t ++ t').
Proof.
  intros Hpre Hstep. rewrite loop_app.
  rewrite (eff_bind_step _ _ _ _ Hpre), loop_singleton. by rewrite Hstep.
Qed.

(** Once an iteration throws, the loop is over: nothing of [post] runs. *)
Lemma loop_aborts pre o post st0 st t err t' :
  loop pre st0 = (Returned st, t) ->
  step o st = (Thrown err, t') ->
  loop (pre ++ o :: post) st0 = (Thrown err, t ++ t').
Proof.
  intros Hpre Hstep. rewrite loop_app.
  rewrite (eff_bind_step _ _ _ _ Hpre). simpl.
  by rewrite (eff_bind_thrown _ _ _ _ Hstep).
Qed.

(** The loop on [pre ++ o :: post], resumed after [o]. *)
Lemma loop_resume pre o post st0 st t :
  loop (pre ++ [o]) st0 = (Returned st, t) ->
  loop (pre ++ o :: post) st0 = ((loop post st).1, t ++ (loop post st).2).
Proof.
  intros Hpre. rewrite (cons_middle o), app_assoc, loop_app.
  by rewrite (eff_bind_step _ _ _ _ Hpre).
Qed.

(** After a rejection by a returned string the loop goes on with the
    remaining options: the message is appended, the values are untouched,
    and the only call of the iteration is the one to the validator. *)
Lemma string_rejection_continues pre o post st0 e v t x validate msg :
  loop pre st0 = (Returned (e, v), t) ->
  raw o = Returned x -> x ≠ VNull ->
  validatorsMap this !! opt_name o = Some validate ->
  isCommandInteraction interaction = true ->
  validate interaction x = Returned (VString msg) ->
  loop (pre ++ o :: post) st0
  = ((loop post (e ++ [msg], v)).1,
     (t ++ [EvValidator (opt_name o) x]) ++ (loop post (e ++ [msg], v)).2).
Proof.
  intros Hpre Hraw Hx Hmap Hcmd Hv. apply loop_resume.
  apply (loop_snoc_returned _ _ _ _ _ _ _ Hpre).
  by apply (step_string_rejection _ _ _ _ validate).
Qed.

(** The method in terms of its loop. *)
Lemma validate_returned r t :
  validateAndTransformOptions this interaction skipRequiredCheck
  = (Returned r, t) ->
  exists e v,
    loop (info_options (commandInfo this)) ([], ∅) = (Returned (e, v), t)
    /\ r = if (0 <? length e)%nat then Errors e else Values v.
Proof.
  unfold validateAndTransformOptions.
  intros ([e v] & t1 & t2 & Hloop & Hfin & ->)%eff_bind_returned.
  exists e, v. eff_unfold.
  destruct (0 <? length e)%nat; simplify_eq; by rewrite app_nil_r.
Qed.



(** What the method returns, in terms of the rejection messages. *)
Lemma validate_returned_messages r t :
  validateAndTransformOptions this interaction skipRequiredCheck
  = (Returned r, t) ->
  exists v,
    r = match omap rejection (info_options (commandInfo this)) with
        | [] => Values v
        | msgs => Errors msgs
        end.
Proof.
  intros (e & v & Hloop & ->)%validate_returned.
  apply loop_errors in Hloop. simpl in Hloop. subst e.
  exists v. by destruct (omap _ _).
Qed.

(** The defect behind the transformer call on a rejected value: after a
    thrown validation error the iteration goes on to the transformer. *)
Lemma validation_error_reaches_transformer o e v x validate msg transform :
  raw o = Returned x -> x ≠ VNull ->
  validatorsMap this !! opt_name o = Some validate ->
  isCommandInteraction interaction = true ->
  validate interaction x = Thrown (ValidationError msg) ->
  transformersMap this !! opt_name o = Some transform ->
  (step o (e, v)).2 = [EvValidator (opt_name o) x; EvTransformer (opt_name o) x].
Proof.
  unfold validate_option, run_validator, raw_value.
  intros -> Hx -> -> Hv Htr. eff_unfold. simpl. rewrite Hv.
  destruct x; try done; simpl;
    (destruct (transformersMap this !! opt_name o) as [f|]; [|done]);
    injection Htr as ->; destruct (transform _); simpl; try done;
    by destruct (object_set _ _ _ _).
Qed.


End validation_facts.

(** ** The claims about [validateAndTransformOptions] *)

(** C2.  When the validation pass returns, the errors it collected are the
    rejection messages of all declared options, in declaration order: a
    rejection does not stop the loop, and the pass returns this list
    whenever it is not empty (and the values object otherwise). *)
Theorem rejections_are_accumulated this interaction skipRequiredCheck r :
  outcome (validateAndTransformOptions this interaction skipRequiredCheck)
  = Returned r ->
  match r with
  | Errors errors =>
      errors = omap (rejection_message this interaction skipRequiredCheck)
                 (info_options (commandInfo this))
      /\ errors ≠ []
  | Values _ =>
      omap (rejection_message this interaction skipRequiredCheck)
        (info_options (commandInfo this)) = []
  end.
Proof.
  unfold outcome.
  destruct (validateAndTransformOptions _ _ _) as [r' t] eqn:Hrun.
  simpl. intros ->.
  apply validate_returned_messages in Hrun as [v ->].
  destruct (omap _ _) as [|msg msgs]; [done|]. by split.
Qed.

(** Three options of which two are rejected: exactly two messages, in
    declaration order. *)
Lemma rejections_are_accumulated_witness :
  outcome (validateAndTransformOptions Sample.signup Sample.submission false)
  = Returned (Errors ["age must be positive"; "unknown color"])
  /\ omap (rejection_message Sample.signup Sample.submission false)
       (info_options (commandInfo Sample.signup))
     = ["age must be positive"; "unknown color"].
Proof.
  assert (outcome (validateAndTransformOptions Sample.signup
                     Sample.submission false)
          = Returned (Errors ["age must be positive"; "unknown color"]))
    as Hrun by (vm_compute; reflexivity).
  split; [exact Hrun|].
  pose proof (rejections_are_accumulated _ _ _ _ Hrun) as [Herrors _].
  symmetry. exact Herrors.
Defined.




(** C7.  When the interaction is not a command interaction (an
    autocomplete request), the validation pass calls no validator. *)
Theorem validators_skipped_for_autocomplete this interaction
    skipRequiredCheck :
  isCommandInteraction interaction = false ->
  forall name value,
    EvValidator name value
    ∉ trace (validateAndTransformOptions this interaction skipRequiredCheck).
Proof.
  intros Hauto name value Hin.
  pose proof (validate_trace_with this interaction skipRequiredCheck
                (fun ev => is_validator_call ev = false)
                (fun o st => step_trace_autocomplete this interaction
                               skipRequiredCheck o st Hauto)) as Hall.
  rewrite Forall_forall in Hall. by apply Hall in Hin.
Qed.

Lemma validators_skipped_for_autocomplete_witness :
  isCommandInteraction Sample.autocompletion = false
  /\ EvValidator "age" (VNumber (-1))
     ∉ trace (validateAndTransformOptions Sample.signup
                Sample.autocompletion true).
Proof.
  split; [reflexivity|].
  apply (validators_skipped_for_autocomplete Sample.signup
           Sample.autocompletion true); reflexivity.
Defined.




(** C6.  A validator that throws, for an option the loop comes to on a
    genuine submission.  If what it throws is a validation error, its
    message is appended to the collected errors and, when the pass returns,
    is among the errors returned.  If it is anything else, the whole pass
    ends there with that very exception: no later option is processed and
    no error list is returned. *)
Theorem validator_exceptions this interaction skipRequiredCheck
    pre o post errors values t x validate err :
  info_options (commandInfo this) = pre ++ o :: post ->
  reaches this interaction skipRequiredCheck pre (errors, values) t ->
  raw_value interaction skipRequiredCheck o = Returned x ->
  x ≠ VNull ->
  validatorsMap this !! opt_name o = Some validate ->
  isCommandInteraction interaction = true ->
  validate interaction x = Thrown err ->
  match err with
  | ValidationError msg =>
      (forall st' t',
         validate_option this interaction skipRequiredCheck o
           (errors, values) = (Returned st', t') ->
         st'.1 = errors ++ [msg])
      /\ (forall r,
            outcome (validateAndTransformOptions this interaction
                       skipRequiredCheck) = Returned r ->
            exists es, r = Errors es /\ msg ∈ es)
  | _ =>
      validateAndTransformOptions this interaction skipRequiredCheck
      = (Thrown err, t ++ [EvValidator (opt_name o) x])
  end.
Proof.
  unfold reaches. intros Hopts Hpre Hraw Hx Hmap Hcmd Hthrow.
  assert (is_validation_error err = false ->
          validateAndTransformOptions this interaction skipRequiredCheck
          = (Thrown err, t ++ [EvValidator (opt_name o) x])) as Hother.
  { intros Herr. unfold validateAndTransformOptions. rewrite Hopts.
    apply eff_bind_thrown.
    apply (loop_aborts _ _ _ _ _ _ _ _ _ _ _ Hpre).
    by apply (step_validator_throws _ _ _ _ _ _ _ validate). }
  destruct err as [m|msg|m]; [by apply Hother| |by apply Hother].
  split.
  - intros st' t' Hstep.
    exact (step_validation_error _ _ _ _ _ _ x validate msg st' t'
             Hraw Hx Hmap Hcmd Hthrow Hstep).
  - intros r Hrun. unfold outcome in Hrun.
    destruct (validateAndTransformOptions _ _ _) as [r' t0] eqn:Hv.
    simpl in Hrun. subst r'.
    apply validate_returned_messages in Hv as [v ->].
    assert (msg ∈ omap (rejection_message this interaction skipRequiredCheck)
                    (info_options (commandInfo this))) as Hin.
    { apply list_elem_of_omap. exists o. split.
      - rewrite Hopts. apply elem_of_app. right. by left.
      - unfold rejection_message. rewrite Hraw, Hmap, Hcmd, Hthrow.
        by destruct x. }
    destruct (omap _ _) as [|m msgs]; [by apply elem_of_nil in Hin|].
    eexists. split; [reflexivity|exact Hin].
Qed.

Lemma validator_exceptions_witness :
  (exists es,
     outcome (validateAndTransformOptions Sample.enroll Sample.submission
                false) = Returned (Errors es)
     /\ "age must be positive" ∈ es)
  /\ validateAndTransformOptions Sample.crash Sample.submission false
     = (Thrown (TypeError "Cannot read properties of undefined"),
        [EvValidator "age" (VNumber (-1)); EvValidator "name" (VString "bob")]).
Proof.
  split.
  - pose proof (validator_exceptions Sample.enroll Sample.submission false
                  [] (Sample.opt "age" INTEGER (Some Sample.positive_or_throw)
                        (Some Sample.double))
                  [Sample.name] [] ∅ [] (VNumber (-1))
                  Sample.positive_or_throw
                  (ValidationError "age must be positive")
                  eq_refl eq_refl eq_refl) as H.
    simpl in H.
    destruct H as [_ H]; try reflexivity; [discriminate|].
    destruct (H (Errors ["age must be positive"])) as (es & Hes & Hin);
      [vm_compute; reflexivity|].
    exists es. split; [|exact Hin].
    injection Hes as <-. vm_compute; reflexivity.
  - apply (validator_exceptions Sample.crash Sample.submission false
             [Sample.age] (Sample.opt "name" STRING (Some Sample.broken) None)
             [Sample.color] ["age must be positive"] ∅
             [EvValidator "age" (VNumber (-1))] (VString "bob")
             Sample.broken
             (TypeError "Cannot read properties of undefined"));
      try (vm_compute; reflexivity). discriminate.
Defined.

(** C4.  The validator of [age] throws a validation error, and the
    transformer of [age] is called all the same, on the rejected value.
    Its result is dropped with the values object when the errors are
    returned; if it throws, its exception replaces the validation
    message. *)
Theorem transformer_runs_after_validation_error :
  validateAndTransformOptions Sample.enroll Sample.submission false
  = (Returned (Errors ["age must be positive"]),
     [EvValidator "age" (VNumber (-1)); EvTransformer "age" (VNumber (-1));
      EvValidator "name" (VString "bob"); EvTransformer "name" (VString "bob")])
  /\ validateAndTransformOptions Sample.enroll_days Sample.submission false
     = (Thrown (Error "negative age"),
        [EvValidator "age" (VNumber (-1)); EvTransformer "age" (VNumber (-1))]).
Proof. split; vm_compute; reflexivity. Qed.

(** ** Dispatch *)

Lemma ephemeral_flag_value : ephemeral_flag = 64%Z.
Proof. reflexivity. Qed.

(** The validation pass calls validators and transformers, nothing else. *)
Lemma validate_calls_no_handler this interaction skipRequiredCheck :
  Forall (fun ev => is_run_call ev = false)
    (trace (validateAndTransformOptions this interaction skipRequiredCheck)).
Proof.
  eapply Forall_impl.
  - apply validate_trace_with, step_trace.
  - by intros [].
Qed.

(** C1, as amended.  [handleCommand] returns [false] when no command is
    registered under the name.  Otherwise it validates.  If validation
    throws, so does [handleCommand].  If validation yields errors, the only
    call made besides those of the validation pass is one reply whose
    content is the messages joined by newlines and whose flag is the
    ephemeral flag; the run handler is not invoked, and [handleCommand]
    completes unless the reply throws.  If validation yields values, the
    run handler is executed through the chat middleware pipeline on those
    values and [handleCommand] returns [true], unless the pipeline
    throws. *)
Theorem handleCommand_cases this name interaction :
  match commandMap this !! name with
  | None => handleCommand this name interaction = (Returned (VBool false), [])
  | Some command =>
      match validateAndTransformOptions command interaction true with
      | (Thrown e, t) => handleCommand this name interaction = (Thrown e, t)
      | (Returned (Errors errors), t) =>
          trace (handleCommand this name interaction)
          = t ++ [EvReplyToInteraction (join_lines errors) 64]
          /\ Forall (fun ev => is_run_call ev = false)
               (trace (handleCommand this name interaction))
          /\ forall e,
               outcome (handleCommand this name interaction) = Thrown e
               <-> replyToInteraction (connector this) interaction
                     (join_lines errors) 64 = Thrown e
      | (Returned (Values values), t) =>
          handleCommand this name interaction
          = (match (pipeline_execute (chatCommandMiddleware this)
                      (invoke_run (run command)) interaction values).1 with
             | Returned _ => Returned (VBool true)
             | Thrown e => Thrown e
             end,
             t ++ (pipeline_execute (chatCommandMiddleware this)
                     (invoke_run (run command)) interaction values).2)
      end
  end.
Proof.
  unfold handleCommand.
  destruct (commandMap this !! name) as [command|]; [|done].
  pose proof (validate_calls_no_handler command interaction true) as Hcalls.
  unfold trace in Hcalls.
  destruct (validateAndTransformOptions command interaction true)
    as [[[errors|values]|e] t]; [| |done].
  - change ephemeral_flag with 64%Z. unfold trace, outcome. eff_unfold.
    simpl in *.
    destruct (replyToInteraction _ _ _ _) as [[]|e]; simpl;
      rewrite ?app_nil_r; (split; [done|]);
      (split; [apply Forall_app; split; [done|by repeat constructor]|]);
      intros e'; split; congruence.
  - eff_unfold.
    destruct (pipeline_execute (chatCommandMiddleware this)
                (invoke_run (run command)) interaction values)
      as [[[]|e] t']; simpl;
      by rewrite ?app_nil_r.
Qed.

(** C1, as stated, fails: with a validator that rejects, [handleCommand]
    completes with [undefined], which is not a boolean. *)
Lemma handleCommand_not_boolean :
  outcome (handleCommand Sample.loaded "signup" Sample.submission)
  = Returned VUndefined
  /\ ~ exists b : bool,
         outcome (handleCommand Sample.loaded "signup" Sample.submission)
         = Returned (VBool b).
Proof.
  assert (outcome (handleCommand Sample.loaded "signup" Sample.submission)
          = Returned VUndefined) as H by (vm_compute; reflexivity).
  split; [exact H|]. rewrite H. intros [b Hb]. discriminate.
Qed.

(** C8.  A command constructed without a [run] handler has [undefined]
    under [run], not the default handler; dispatching it throws a type
    error and no reply is sent. *)
Theorem missing_run_handler_throws :
  run Sample.bare = None
  /\ handleCommand Sample.loaded "bare" Sample.submission
     = (Thrown (TypeError "base is not a function"), []).
Proof. split; vm_compute; reflexivity. Qed.

(** The constructor stores [handlers.run] whatever it is, while it keeps
    the default [autocomplete] when the handlers have none. *)
Lemma new_SlashCommand_handlers info handlers :
  run (new_SlashCommand info handlers) = handlers_run handlers
  /\ (handlers_autocomplete handlers = None ->
      autocomplete (new_SlashCommand info handlers)
      = Some default_autocomplete).
Proof. split; [done|]. simpl. by intros ->. Qed.

(** The default handlers themselves: one ephemeral reply, one placeholder
    choice. *)
Lemma default_handlers interaction focusedName focusedValue options :
  default_run interaction options
  = (Returned tt,
     [EvInteractionReply "This command is not implemented yet" true])
  /\ default_autocomplete interaction focusedName focusedValue options
     = (Returned tt,
        [EvInteractionRespond
           [("This interaction isn't implemented yet", VString "error")]]).
Proof. done. Qed.

(** ** Page persistence *)

(** C9.  A client constructed without [storePageState] (resp.
    [getPageState]) throws on every call of that function, with an error
    whose message names both functions. *)
Theorem page_functions_fail_loudly connector options :
  (options_storePageState options = None ->
   forall messageId pageId state messageData,
     storePageState (new_SlashasaurusClient connector options)
       messageId pageId state messageData
     = Thrown (Error page_functions_missing))
  /\ (options_getPageState options = None ->
      forall messageId,
        getPageState (new_SlashasaurusClient connector options) messageId
        = Thrown (Error page_functions_missing))
  /\ contains "storePageState" page_functions_missing = true
  /\ contains "getPageState" page_functions_missing = true.
Proof.
  repeat split; try (vm_compute; reflexivity); simpl; by intros ->.
Qed.

Lemma page_functions_fail_loudly_witness :
  storePageState Sample.fresh "42" "menu" "{}" "{}"
  = Thrown (Error page_functions_missing)
  /\ getPageState Sample.fresh "42" = Thrown (Error page_functions_missing).
Proof.
  destruct (page_functions_fail_loudly Sample.discord Sample.no_options)
    as (Hstore & Hget & _).
  split; [apply Hstore|apply Hget]; reflexivity.
Defined.

(** ** Command loading *)

(** C3.  Two files under [user/] (and two under [message/]) that export a
    command of the same name load without an error: the second command
    replaces the first in its map, and the registration call is made, with
    both descriptors. *)
Theorem duplicate_context_command_overwrites :
  let '(r, w) :=
    registerCommandsFrom "commands" Sample.duplicate_context_tree true
      (Some "token") Sample.world in
  r = Returned tt
  /\ userContextMenuMap (client w) !! "Ping" = Some Sample.ping_second
  /\ messageContextMenuMap (client w) !! "Ping" = Some Sample.ping_second
  /\ rest_puts w
     = [ {| put_route := applicationCommands "app";
            put_body :=
              [ ContextMenuCommandBuilder "Ping" 2;
                ContextMenuCommandBuilder "Ping" 2;
                ContextMenuCommandBuilder "Ping" 3;
                ContextMenuCommandBuilder "Ping" 3 ] |} ].
Proof. vm_compute. repeat split. Qed.

(** *** The chat registry refuses duplicates, and a failed load registers
    nothing *)

(** A chat command whose dotted name is taken is not inserted: the load
    fails and the map is left as it was. *)
Lemma add_chat_command_duplicate file prefix data command w :
  mod_default data = Some (ExportChat command) ->
  is_Some (commandMap (client w)
             !! (prefix +:+ info_name (commandInfo command))) ->
  add_chat_command file prefix data w
  = (Thrown (Error ("Duplicate command name "
                    +:+ (prefix +:+ info_name (commandInfo command)))), w).
Proof.
  unfold add_chat_command. intros -> [c Hc].
  unfold mbind, load_mbind, load_get. simpl. by rewrite Hc.
Qed.

Lemma keeps_puts_ret {A} (a : A) : keeps_puts (mret a).
Proof. done. Qed.

Lemma keeps_puts_throw {A} e : keeps_puts (@load_throw A e).
Proof. done. Qed.

Lemma keeps_puts_get : keeps_puts load_get.
Proof. done. Qed.

Lemma keeps_puts_modify f : keeps_puts (load_modify f).
Proof. done. Qed.

Lemma keeps_puts_bind {A B} (m : Loader A) (k : A -> Loader B) :
  keeps_puts m -> (forall a, keeps_puts (k a)) -> keeps_puts (m ≫= k).
Proof.
  intros Hm Hk w. unfold mbind, load_mbind. specialize (Hm w).
  destruct (m w) as [[a|e] w']; simpl in *; [|done].
  by rewrite Hk.
Qed.

Lemma keeps_puts_for_of {A S} (l : list A) (body : S -> A -> Loader S) s :
  (forall s x, keeps_puts (body s x)) -> keeps_puts (for_of l body s).
Proof.
  intros Hbody. revert s. induction l as [|x l IH]; intros s; simpl.
  - apply keeps_puts_ret.
  - apply keeps_puts_bind; auto.
Qed.

Create HintDb keeps_puts.
#[local] Hint Resolve keeps_puts_ret keeps_puts_throw keeps_puts_get
  keeps_puts_modify : keeps_puts.

Ltac keeps_puts :=
  repeat first
    [ progress auto with keeps_puts
    | apply keeps_puts_for_of; intros
    | apply keeps_puts_bind; intros
    | progress cbv beta
    | match goal with
      | s : (_ * _)%type |- _ => destruct s
      | |- keeps_puts (match ?x with _ => _ end) => destruct x
      | |- keeps_puts (let '(_, _) := ?x in _) => destruct x
      | |- keeps_puts (if ?b then _ else _) => destruct b
      end ].

Lemma keeps_puts_add_chat_command file prefix data :
  keeps_puts (add_chat_command file prefix data).
Proof.
  unfold add_chat_command, no_default_export, wrong_default_export,
    duplicate_command_name.
  keeps_puts.
Qed.
#[local] Hint Resolve keeps_puts_add_chat_command : keeps_puts.

Lemma keeps_puts_loadUserCommands path topLevel :
  keeps_puts (loadUserCommands path topLevel).
Proof.
  unfold loadUserCommands, no_default_export, wrong_default_export,
    folder_in_context_menu.
  keeps_puts.
Qed.

Lemma keeps_puts_loadMessageCommands path topLevel :
  keeps_puts (loadMessageCommands path topLevel).
Proof.
  unfold loadMessageCommands, no_default_export, wrong_default_export,
    folder_in_context_menu.
  keeps_puts.
Qed.

Lemma keeps_puts_loadSubFolderLevelTwo path name parentName topLevel :
  keeps_puts (loadSubFolderLevelTwo path name parentName topLevel).
Proof. unfold loadSubFolderLevelTwo. keeps_puts. Qed.
#[local] Hint Resolve keeps_puts_loadSubFolderLevelTwo : keeps_puts.

Lemma keeps_puts_loadSubFolderLevelOne path name topLevel :
  keeps_puts (loadSubFolderLevelOne path name topLevel).
Proof. unfold loadSubFolderLevelOne. keeps_puts. Qed.
#[local] Hint Resolve keeps_puts_loadSubFolderLevelOne : keeps_puts.

Lemma keeps_puts_loadTopLevelCommands path topLevel :
  keeps_puts (loadTopLevelCommands path topLevel).
Proof. unfold loadTopLevelCommands. keeps_puts. Qed.

#[local] Hint Resolve keeps_puts_loadUserCommands
  keeps_puts_loadMessageCommands keeps_puts_loadTopLevelCommands
  : keeps_puts.

Lemma keeps_puts_load_command_folders folderPath topLevelFolders :
  keeps_puts (load_command_folders folderPath topLevelFolders).
Proof. unfold load_command_folders, readdir. keeps_puts. Qed.

(** An error of the traversal precedes registration: when loading the
    command files throws, [registerCommandsFrom] throws that error and no
    registration call has been made. *)
Lemma load_error_precedes_registration folderPath topLevelFolders register
    token w e w' :
  load_command_folders folderPath topLevelFolders w = (Thrown e, w') ->
  registerCommandsFrom folderPath topLevelFolders register token w
  = (Thrown e, w')
  /\ rest_puts w' = rest_puts w.
Proof.
  intros Hload.
  pose proof (keeps_puts_load_command_folders folderPath topLevelFolders w)
    as Hputs.
  unfold registerCommandsFrom, mbind, load_mbind.
  rewrite Hload in *. by split.
Qed.

(** Two chat files that resolve to the same name: the load stops at the
    second one, before any registration call, and the first entry is still
    in the map. *)
Lemma duplicate_chat_command_is_fatal :
  let '(r, w) :=
    registerCommandsFrom "commands" Sample.duplicate_chat_tree true
      (Some "token") Sample.world in
  r = Thrown (Error "Duplicate command name signup")
  /\ commandMap (client w) !! "signup" = Some Sample.signup
  /\ rest_puts w = [].
Proof. vm_compute. repeat split. Qed.

(** ** File-name patterns *)

Lemma append_nil (b : string) : "" +:+ b = b.
Proof. reflexivity. Qed.

Lemma append_cons c (a b : string) : String c a +:+ b = String c (a +:+ b).
Proof. reflexivity. Qed.

Lemma length_append (a b : string) :
  String.length (a +:+ b) = (String.length a + String.length b)%nat.
Proof.
  induction a as [|c a IH]; rewrite ?append_nil, ?append_cons; simpl;
    [done|]. by rewrite IH.
Qed.

Lemma append_empty_r (a : string) : a +:+ "" = a.
Proof.
  induction a as [|c a IH]; rewrite ?append_nil, ?append_cons; [done|].
  by rewrite IH.
Qed.

Lemma substring_append_skip (b t : string) n m :
  String.substring (String.length b + n) m (b +:+ t) = String.substring n m t.
Proof.
  induction b as [|c b IH]; rewrite ?append_nil, ?append_cons; simpl;
    [done|]. apply IH.
Qed.

Lemma substring_append_keep (b t : string) n :
  String.substring 0 (String.length b + n) (b +:+ t)
  = b +:+ String.substring 0 n t.
Proof.
  induction b as [|c b IH]; rewrite ?append_nil, ?append_cons; simpl;
    [done|]. by rewrite IH.
Qed.

Lemma substring_split (s : string) m :
  (m <= String.length s)%nat ->
  String.substring 0 m s +:+ String.substring m (String.length s - m) s = s.
Proof.
  revert m. induction s as [|c s IH]; intros [|m] Hm; simpl in *;
    rewrite ?append_nil, ?append_cons; try done; try lia.
  - f_equal. specialize (IH 0%nat ltac:(lia)).
    rewrite Nat.sub_0_r in IH.
    destruct s; simpl in *; rewrite ?append_nil in *; [done|]. exact IH.
  - f_equal. apply IH. lia.
Qed.

(** A suffix test looks at the end of the name only. *)
Lemma ends_with_append (suffix b t : string) :
  (String.length suffix <= String.length t)%nat ->
  ends_with suffix (b +:+ t) = ends_with suffix t.
Proof.
  intros Hk. unfold ends_with. rewrite length_append.
  replace (String.length b + String.length t - String.length suffix)%nat
    with (String.length b + (String.length t - String.length suffix))%nat
    by lia.
  rewrite substring_append_skip.
  replace (String.length suffix <=? String.length b + String.length t)%nat
    with true by (symmetry; apply Nat.leb_le; lia).
  replace (String.length suffix <=? String.length t)%nat
    with true by (symmetry; apply Nat.leb_le; lia).
  done.
Qed.

Lemma strip_suffix_append (suffix b t : string) :
  (String.length suffix <= String.length t)%nat ->
  strip_suffix suffix (b +:+ t) = (fun r => b +:+ r) <$> strip_suffix suffix t.
Proof.
  intros Hk. unfold strip_suffix. rewrite ends_with_append by done.
  destruct (ends_with suffix t); [|done]. simpl. f_equal.
  rewrite length_append.
  replace (String.length b + String.length t - String.length suffix)%nat
    with (String.length b + (String.length t - String.length suffix))%nat
    by lia.
  apply substring_append_keep.
Qed.

Lemma strip_suffix_Some suffix s base :
  strip_suffix suffix s = Some base -> s = base +:+ suffix.
Proof.
  unfold strip_suffix, ends_with.
  destruct (String.length suffix <=? String.length s)%nat eqn:Hk;
    [|done]. simpl.
  destruct (String.eqb_spec
              (String.substring (String.length s - String.length suffix)
                 (String.length suffix) s) suffix) as [Heq|]; [|done].
  intros [= <-]. apply Nat.leb_le in Hk.
  rewrite <-(substring_split s (String.length s - String.length suffix))
    at 1 by lia.
  f_equal.
  replace (String.length s - (String.length s - String.length suffix))%nat
    with (String.length suffix) by lia.
  exact Heq.
Qed.

(** X1.  [JSFileRegex] accepts exactly the names made of a base that does
    not end in [.d] followed by [.js], [.ts], [.jsx] or [.tsx]; a
    declaration file ([.d.ts] and the like) is never accepted. *)
Theorem JSFileRegex_spec s :
  (JSFileRegex s = true <->
   exists base ext,
     ext ∈ source_extensions /\ s = base +:+ ext
     /\ ends_with ".d" base = false)
  /\ (forall base ext,
        ext ∈ source_extensions -> JSFileRegex (base +:+ ".d" +:+ ext) = false).
Proof.
  split; [split|].
  - unfold JSFileRegex. intros (ext & Hin & H)%existsb_exists.
    destruct (strip_suffix ext s) as [base|] eqn:Hs; [|done].
    exists base, ext. split; [by apply list_elem_of_In|].
    split; [by apply strip_suffix_Some|]. by apply negb_true_iff.
  - intros (base & ext & Hin & -> & Hd). unfold JSFileRegex.
    apply existsb_exists. exists ext. split; [by apply list_elem_of_In|].
    unfold source_extensions in Hin.
    repeat (apply elem_of_cons in Hin as [->|Hin]);
      try (by apply elem_of_nil in Hin);
      rewrite strip_suffix_append by (simpl; lia); simpl;
      by rewrite append_empty_r, Hd.
  - intros base ext Hin. unfold source_extensions in Hin. unfold JSFileRegex.
    repeat (apply elem_of_cons in Hin as [->|Hin]);
      try (by apply elem_of_nil in Hin);
      simpl existsb;
      rewrite !(strip_suffix_append _ base) by (simpl; lia); simpl;
      by rewrite (ends_with_append ".d" base ".d") by (simpl; lia).
Qed.

Lemma get_append_skip (b t : string) n :
  String.get (String.length b + n) (b +:+ t) = String.get n t.
Proof.
  induction b as [|c b IH]; rewrite ?append_nil, ?append_cons; simpl;
    [done|]. apply IH.
Qed.

Lemma last_char_append (b t : string) :
  (0 < String.length t)%nat -> last_char (b +:+ t) = last_char t.
Proof.
  intros Ht. unfold last_char. rewrite length_append.
  destruct (String.length t) as [|k] eqn:Hk; [lia|].
  replace (String.length b + S k)%nat with (S (String.length b + k)) by lia.
  apply get_append_skip.
Qed.

Lemma meta_name base (tail : string) :
  tail ∈ ["js"; "ts"; "jsx"; "tsx"] ->
  (String.length tail <= String.length ("_meta." +:+ tail))%nat ->
  strip_suffix tail ("_meta." +:+ tail) = Some "_meta." ->
  MetaFileRegex (base +:+ "_meta." +:+ tail) = true.
Proof.
  intros Hin Hlen Hstrip. unfold MetaFileRegex.
  apply existsb_exists. exists tail. split; [by apply list_elem_of_In|].
  rewrite strip_suffix_append, Hstrip by done. simpl.
  rewrite last_char_append by (simpl; lia).
  change (last_char "_meta.") with (Some "."%char).
  rewrite length_append.
  replace (String.length base + String.length "_meta." - 1)%nat
    with (String.length base + 5)%nat by (simpl; lia).
  rewrite substring_append_keep.
  change (String.substring 0 5 "_meta.") with "_meta".
  by rewrite ends_with_append by (simpl; lia).
Qed.

Lemma JSFileRegex_spec_witness :
  JSFileRegex ("types" +:+ ".d" +:+ ".ts") = false.
Proof.
  apply (proj2 (JSFileRegex_spec "")). unfold source_extensions. set_solver.
Defined.

(** ** Invariants of the loaders *)

Lemma load_bind_returned {A B} (m : Loader A) (k : A -> Loader B) w b w' :
  (m ≫= k) w = (Returned b, w') ->
  exists a w1, m w = (Returned a, w1) /\ k a w1 = (Returned b, w').
Proof.
  unfold mbind, load_mbind. destruct (m w) as [[a|e] w1]; [|done].
  intros Hk. by exists a, w1.
Qed.

Lemma load_bind_step {A B} (m : Loader A) (k : A -> Loader B) w a w1 :
  m w = (Returned a, w1) -> (m ≫= k) w = k a w1.
Proof. unfold mbind, load_mbind. by intros ->. Qed.

Lemma load_bind_thrown {A B} (m : Loader A) (k : A -> Loader B) w e w1 :
  m w = (Thrown e, w1) -> (m ≫= k) w = (Thrown e, w1).
Proof. unfold mbind, load_mbind. by intros ->. Qed.

Lemma for_of_cons {A S} x (l : list A) (body : S -> A -> Loader S) s :
  for_of (x :: l) body s = (body s x ≫= for_of l body).
Proof. reflexivity. Qed.

Lemma for_of_app {A S} (l1 l2 : list A) (body : S -> A -> Loader S) s w :
  for_of (l1 ++ l2) body s w = (for_of l1 body s ≫= for_of l2 body) w.
Proof.
  revert s w. induction l1 as [|x l1 IH]; intros s w; [done|].
  rewrite <-app_comm_cons, !for_of_cons.
  unfold mbind, load_mbind in *.
  destruct (body s x w) as [[s1|e] w1]; [|done]. apply IH.
Qed.

Section keeps.
Context (R : World -> World -> Prop) `{!PreOrder R}.

Lemma loader_keeps_ret {A} (a : A) : loader_keeps R (mret a).
Proof. intros w. simpl. reflexivity. Qed.

Lemma loader_keeps_throw {A} e : loader_keeps R (@load_throw A e).
Proof. intros w. simpl. reflexivity. Qed.

Lemma loader_keeps_get : loader_keeps R load_get.
Proof. intros w. simpl. reflexivity. Qed.

Lemma loader_keeps_bind {A B} (m : Loader A) (k : A -> Loader B) :
  loader_keeps R m -> (forall a, loader_keeps R (k a)) ->
  loader_keeps R (m ≫= k).
Proof.
  intros Hm Hk w. unfold mbind, load_mbind. specialize (Hm w).
  destruct (m w) as [[a|e] w']; simpl in *; [|done].
  etrans; [exact Hm|apply Hk].
Qed.

Lemma loader_keeps_for_of {A S} (l : list A) (body : S -> A -> Loader S) s :
  (forall s x, loader_keeps R (body s x)) -> loader_keeps R (for_of l body s).
Proof.
  intros Hbody. revert s. induction l as [|x l IH]; intros s.
  - apply loader_keeps_ret.
  - rewrite for_of_cons. apply loader_keeps_bind; auto.
Qed.
End keeps.

#[local] Instance chat_entries_kept_preorder : PreOrder chat_entries_kept.
Proof. split; [by intros w k c|]. intros a b c Hab Hbc k x Hk. eauto. Qed.

#[local] Instance only_chat_changed_preorder : PreOrder only_chat_changed.
Proof.
  split; [by intros w|]. intros a b c (?&?&?) (?&?&?).
  repeat split; congruence.
Qed.

#[local] Instance only_user_changed_preorder : PreOrder only_user_changed.
Proof.
  split; [by intros w|]. intros a b c (?&?&?) (?&?&?).
  repeat split; congruence.
Qed.

#[local] Instance only_message_changed_preorder :
  PreOrder only_message_changed.
Proof.
  split; [by intros w|]. intros a b c (?&?&?) (?&?&?).
  repeat split; congruence.
Qed.

(** Steps through a loader, leaving the goals about [load_modify]. *)
Ltac loader_keeps :=
  repeat first
    [ apply loader_keeps_ret
    | apply loader_keeps_throw
    | apply loader_keeps_get
    | solve [auto]
    | match goal with |- PreOrder _ => tc_solve end
    | apply loader_keeps_for_of; intros
    | apply loader_keeps_bind; intros
    | progress cbv beta
    | match goal with
      | s : (_ * _)%type |- _ => destruct s
      | |- loader_keeps _ (match ?x with _ => _ end) => destruct x
      | |- loader_keeps _ (let '(_, _) := ?x in _) => destruct x
      | |- loader_keeps _ (if ?b then _ else _) => destruct b
      end ].

Ltac unfold_loaders :=
  unfold registerCommandsFrom, registerGuildCommandsFrom,
    load_command_folders, readdir, loadTopLevelCommands,
    loadSubFolderLevelOne, loadSubFolderLevelTwo, loadUserCommands,
    loadMessageCommands, no_default_export, wrong_default_export,
    folder_in_context_menu.

Lemma add_chat_command_keeps_entries file prefix data :
  loader_keeps chat_entries_kept (add_chat_command file prefix data).
Proof.
  intros w k c Hk. unfold add_chat_command.
  destruct (mod_default data) as [[command| | |]|]; try done.
  unfold mbind, load_mbind, load_get. simpl.
  destruct (commandMap (client w)
              !! (prefix +:+ info_name (commandInfo command))) eqn:Hfree;
    simpl; [done|].
  rewrite lookup_insert_ne; [done|]. intros <-. by rewrite Hfree in Hk.
Qed.

Lemma modify_user_keeps_entries name command :
  loader_keeps chat_entries_kept
    (load_modify (set_userContextMenuMap name command)).
Proof. by intros w k c Hk. Qed.

Lemma modify_message_keeps_entries name command :
  loader_keeps chat_entries_kept
    (load_modify (set_messageContextMenuMap name command)).
Proof. by intros w k c Hk. Qed.

Lemma rest_put_keeps_entries token route body :
  loader_keeps chat_entries_kept (rest_put token route body).
Proof. by intros w k c Hk. Qed.

Lemma register_keeps_entries folderPath tree register token :
  loader_keeps chat_entries_kept
    (registerCommandsFrom folderPath tree register token).
Proof.
  pose proof add_chat_command_keeps_entries.
  pose proof modify_user_keeps_entries.
  pose proof modify_message_keeps_entries.
  pose proof rest_put_keeps_entries.
  unfold_loaders. loader_keeps.
Qed.

(** ** More about command loading *)

Lemma register_guild_keeps_entries folderPath tree guildId register token :
  loader_keeps chat_entries_kept
    (registerGuildCommandsFrom folderPath tree guildId register token).
Proof.
  pose proof add_chat_command_keeps_entries.
  pose proof modify_user_keeps_entries.
  pose proof modify_message_keeps_entries.
  pose proof rest_put_keeps_entries.
  unfold_loaders. loader_keeps.
Qed.

(** X2.  Loading never replaces or removes an entry of the chat registry:
    a command found under a name before [registerCommandsFrom] or
    [registerGuildCommandsFrom] is found there afterwards, however the
    load ends. *)
Theorem chat_registry_is_never_overwritten folderPath tree guildId register
    token w k c :
  commandMap (client w) !! k = Some c ->
  commandMap
    (client (registerCommandsFrom folderPath tree register token w).2) !! k
  = Some c
  /\ commandMap
       (client (registerGuildCommandsFrom folderPath tree guildId register
                  token w).2) !! k
     = Some c.
Proof.
  intros Hk. split.
  - by apply register_keeps_entries.
  - by apply register_guild_keeps_entries.
Qed.

Lemma chat_registry_is_never_overwritten_witness :
  commandMap
    (client
       (registerCommandsFrom "commands" Sample.duplicate_chat_tree true
          (Some "token") {| client := Sample.loaded; rest_puts := [] |}).2)
  !! "rename" = Some Sample.rename.
Proof.
  apply (chat_registry_is_never_overwritten "commands"
           Sample.duplicate_chat_tree "guild" true (Some "token")
           {| client := Sample.loaded; rest_puts := [] |} "rename"
           Sample.rename).
  vm_compute; reflexivity.
Defined.

Lemma add_chat_command_only_chat file prefix data :
  loader_keeps only_chat_changed (add_chat_command file prefix data).
Proof.
  intros w. unfold add_chat_command.
  destruct (mod_default data) as [[command| | |]|]; try done.
  unfold mbind, load_mbind, load_get. simpl.
  by destruct (commandMap (client w) !! _).
Qed.

Lemma chat_loading_only_chat path entries :
  loader_keeps only_chat_changed (loadTopLevelCommands path entries).
Proof.
  pose proof add_chat_command_only_chat.
  unfold_loaders. loader_keeps.
Qed.

Lemma user_loading_only_user path entries :
  loader_keeps only_user_changed (loadUserCommands path entries).
Proof.
  assert (forall name command,
            loader_keeps only_user_changed
              (load_modify (set_userContextMenuMap name command)))
    by (by intros name command w).
  unfold_loaders. loader_keeps.
Qed.

Lemma message_loading_only_message path entries :
  loader_keeps only_message_changed (loadMessageCommands path entries).
Proof.
  assert (forall name command,
            loader_keeps only_message_changed
              (load_modify (set_messageContextMenuMap name command)))
    by (by intros name command w).
  unfold_loaders. loader_keeps.
Qed.

(** X3.  Each loader writes to its own registry only: loading chat
    commands leaves the two context-menu registries as they were, loading
    user commands leaves the chat and the message registries, loading
    message commands the chat and the user registries; the middleware, the
    page functions and the connector are never touched. *)
Theorem loaders_write_their_own_registry path entries w :
  only_chat_changed w (loadTopLevelCommands path entries w).2
  /\ only_user_changed w (loadUserCommands path entries w).2
  /\ only_message_changed w (loadMessageCommands path entries w).2.
Proof.
  split; [apply chat_loading_only_chat|].
  split; [apply user_loading_only_user|apply message_loading_only_message].
Qed.

Lemma for_of_throws {A S} (l : list A) (body : S -> A -> Loader S) x :
  x ∈ l ->
  (forall s w, exists e, (body s x w).1 = Thrown e) ->
  forall s w, exists e, (for_of l body s w).1 = Thrown e.
Proof.
  intros Hin Hx. induction l as [|y l IH]; intros s w.
  - by apply elem_of_nil in Hin.
  - rewrite for_of_cons. unfold mbind, load_mbind.
    apply elem_of_cons in Hin as [<-|Hin].
    + destruct (Hx s w) as [e He].
      destruct (body s x w) as [[s1|e1] w1]; simpl in *; [done|]. eauto.
    + destruct (body s y w) as [[s1|e1] w1]; simpl; [|eauto].
      by apply IH.
Qed.

(** X4.  A folder among the entries of a context-menu directory makes the
    load fail, wherever it stands and whatever the other entries are. *)
Theorem context_menu_folder_is_fatal path entries name sub w :
  Folder name sub ∈ entries ->
  (exists e, (loadUserCommands path entries w).1 = Thrown e)
  /\ (exists e, (loadMessageCommands path entries w).1 = Thrown e).
Proof.
  intros Hin. split.
  - apply (for_of_throws _ _ _ Hin). intros s w'. by eexists.
  - apply (for_of_throws _ _ _ Hin). intros s w'. by eexists.
Qed.

Lemma context_menu_folder_is_fatal_witness :
  exists e,
    (loadUserCommands "commands/user"
       [File "a.js" (Sample.exporting (ExportUser Sample.ping_first));
        Folder "more" []] Sample.world).1 = Thrown e.
Proof.
  refine (proj1 (context_menu_folder_is_fatal "commands/user" _ "more" []
                   Sample.world _)).
  apply elem_of_cons. right. apply elem_of_cons. by left.
Defined.

Lemma for_of_snoc {A S} (l : list A) x (body : S -> A -> Loader S) s w :
  for_of (l ++ [x]) body s w = (for_of l body s ≫= fun s' => body s' x) w.
Proof.
  rewrite for_of_app. unfold mbind, load_mbind.
  destruct (for_of l body s w) as [[s1|e] w1]; [|done].
  rewrite for_of_cons. unfold mbind, load_mbind. simpl.
  by destruct (body s1 x w1) as [[s2|e] w2].
Qed.

Lemma context_commands_snoc select l x :
  context_commands select (l ++ [x])
  = context_commands select l ++ context_commands select [x].
Proof. unfold context_commands. apply omap_app. Qed.

Lemma insert_all_app cs1 cs2 m :
  insert_all (cs1 ++ cs2) m = insert_all cs2 (insert_all cs1 m).
Proof. unfold insert_all. apply foldl_app. Qed.

Lemma insert_all_registers cs m c :
  c ∈ cs -> is_Some (insert_all cs m !! cm_name c).
Proof.
  revert m. induction cs as [|c' cs IH] using rev_ind; intros m Hin.
  - by apply elem_of_nil in Hin.
  - rewrite insert_all_app. simpl.
    apply elem_of_app in Hin as [Hin|Hin%list_elem_of_singleton].
    + apply lookup_insert_is_Some'. right. by apply IH.
    + subst. rewrite lookup_insert_eq. by eexists.
Qed.

Lemma loadUserCommands_returned path entries w cd w' :
  loadUserCommands path entries w = (Returned cd, w') ->
  cd = (fun c => ContextMenuCommandBuilder (cm_name c)
                   ApplicationCommandType_User)
         <$> context_commands exported_user entries
  /\ userContextMenuMap (client w')
     = insert_all (context_commands exported_user entries)
         (userContextMenuMap (client w)).
Proof.
  revert cd w'. induction entries as [|x entries IH] using rev_ind;
    intros cd w'.
  - by intros [= <- <-].
  - unfold loadUserCommands in *. rewrite for_of_snoc.
    intros (cd1 & w1 & Hl & Hx)%load_bind_returned.
    destruct (IH _ _ Hl) as [-> Hmap].
    rewrite context_commands_snoc, fmap_app, insert_all_app, <-Hmap.
    unfold context_commands. simpl.
    destruct x as [n data|n sub]; [|done].
    destruct (JSFileRegex n); [|injection Hx as <- <-; by rewrite app_nil_r].
    destruct (mod_default data) as [[c|c|c|]|]; try done.
    injection Hx as <- <-. done.
Qed.

Lemma loadMessageCommands_returned path entries w cd w' :
  loadMessageCommands path entries w = (Returned cd, w') ->
  cd = (fun c => ContextMenuCommandBuilder (cm_name c)
                   ApplicationCommandType_Message)
         <$> context_commands exported_message entries
  /\ messageContextMenuMap (client w')
     = insert_all (context_commands exported_message entries)
         (messageContextMenuMap (client w)).
Proof.
  revert cd w'. induction entries as [|x entries IH] using rev_ind;
    intros cd w'.
  - by intros [= <- <-].
  - unfold loadMessageCommands in *. rewrite for_of_snoc.
    intros (cd1 & w1 & Hl & Hx)%load_bind_returned.
    destruct (IH _ _ Hl) as [-> Hmap].
    rewrite context_commands_snoc, fmap_app, insert_all_app, <-Hmap.
    unfold context_commands. simpl.
    destruct x as [n data|n sub]; [|done].
    destruct (JSFileRegex n); [|injection Hx as <- <-; by rewrite app_nil_r].
    destruct (mod_default data) as [[c|c|c|]|]; try done.
    injection Hx as <- <-. done.
Qed.

Lemma insert_all_lookup cs m n :
  insert_all cs m !! n
  = match last_named n cs with
    | Some c => Some c
    | None => m !! n
    end.
Proof.
  unfold last_named.
  induction cs as [|c cs IH] using rev_ind; [done|].
  rewrite insert_all_app, filter_app. simpl.
  rewrite filter_cons, filter_nil.
  destruct (decide (cm_name c = n)) as [<-|Hne].
  - by rewrite lookup_insert_eq, last_snoc.
  - by rewrite lookup_insert_ne, app_nil_r.
Qed.

(** X5.  A successful load of the user directory returns one descriptor of
    type 2 per source file, in directory order, duplicates of a name
    included, and leaves the user registry as it was with each of these
    commands inserted under its name, in that order.  Under a name the
    registry then holds the last loaded command of that name (an earlier
    loaded command of the same name has been replaced), and what it held
    before if no loaded command has that name. *)
Theorem loadUserCommands_descriptors path entries w cd w' :
  loadUserCommands path entries w = (Returned cd, w') ->
  cd = (fun c => ContextMenuCommandBuilder (cm_name c) 2)
         <$> context_commands exported_user entries
  /\ userContextMenuMap (client w')
     = insert_all (context_commands exported_user entries)
         (userContextMenuMap (client w))
  /\ forall n,
       userContextMenuMap (client w') !! n
       = match last_named n (context_commands exported_user entries) with
         | Some c => Some c
         | None => userContextMenuMap (client w) !! n
         end.
Proof.
  intros [Hcd Hmap]%loadUserCommands_returned.
  split; [done|]. split; [done|].
  intros n. rewrite Hmap. apply insert_all_lookup.
Qed.

(** Two files that export a command named [Ping]: two descriptors, and the
    command of the second file under [Ping]. *)
Lemma loadUserCommands_descriptors_witness :
  exists cd w',
    loadUserCommands "commands/user"
      [File "a.js" (Sample.exporting (ExportUser Sample.ping_first));
       File "notes.md" (Sample.exporting ExportOther);
       File "b.js" (Sample.exporting (ExportUser Sample.ping_second))]
      Sample.world
    = (Returned cd, w')
    /\ cd = [ContextMenuCommandBuilder "Ping" 2;
             ContextMenuCommandBuilder "Ping" 2]
    /\ userContextMenuMap (client w') !! "Ping" = Some Sample.ping_second.
Proof.
  eexists _, _. split; [vm_compute; reflexivity|].
  match goal with
  | |- ?cd = _ /\ userContextMenuMap (client ?w') !! _ = _ =>
      pose proof (loadUserCommands_descriptors "commands/user"
                    [File "a.js"
                       (Sample.exporting (ExportUser Sample.ping_first));
                     File "notes.md" (Sample.exporting ExportOther);
                     File "b.js"
                       (Sample.exporting (ExportUser Sample.ping_second))]
                    Sample.world cd w' ltac:(vm_compute; reflexivity))
        as (Hcd & _ & Hmap)
  end.
  split; [exact Hcd|]. exact (Hmap "Ping").
Defined.

(** X6.  A successful load of the message directory returns one
    descriptor of type 3 per source file, in directory order, and leaves
    the message registry as it was with each of these commands inserted
    under its name, in that order. *)
Theorem loadMessageCommands_descriptors path entries w cd w' :
  loadMessageCommands path entries w = (Returned cd, w') ->
  cd = (fun c => ContextMenuCommandBuilder (cm_name c) 3)
         <$> context_commands exported_message entries
  /\ messageContextMenuMap (client w')
     = insert_all (context_commands exported_message entries)
         (messageContextMenuMap (client w))
  /\ forall c,
       c ∈ context_commands exported_message entries ->
       is_Some (messageContextMenuMap (client w') !! cm_name c).
Proof.
  intros [Hcd Hmap]%loadMessageCommands_returned.
  split; [done|]. split; [done|].
  intros c Hc. rewrite Hmap. by apply insert_all_registers.
Qed.

Lemma loadMessageCommands_descriptors_witness :
  exists cd w',
    loadMessageCommands "commands/message"
      [File "a.js" (Sample.exporting (ExportMessage Sample.ping_first))]
      Sample.world
    = (Returned cd, w')
    /\ cd = [ContextMenuCommandBuilder "Ping" 3].
Proof.
  eexists _, _. split; [vm_compute; reflexivity|].
  match goal with
  | |- ?cd = _ =>
      pose proof (loadMessageCommands_descriptors "commands/message"
                    [File "a.js"
                       (Sample.exporting (ExportMessage Sample.ping_first))]
                    Sample.world cd _ ltac:(vm_compute; reflexivity))
        as [H _]
  end.
  exact H.
Defined.

Lemma for_of_skip {A S} (pre : list A) x post (body : S -> A -> Loader S)
    s w :
  (forall s w, body s x w = (Returned s, w)) ->
  for_of (pre ++ x :: post) body s w = for_of (pre ++ post) body s w.
Proof.
  intros Hx. rewrite !for_of_app. unfold mbind, load_mbind.
  destruct (for_of pre body s w) as [[s1|e] w1]; [|done].
  rewrite for_of_cons. unfold mbind, load_mbind. by rewrite Hx.
Qed.

(** X7.  A file whose name is not that of a source file is ignored by the
    loaders, whatever it exports: the load goes as if the file were not
    there.  In the sub-command directories this holds of the files that
    are not meta files either. *)
Theorem other_files_are_ignored path pre n data post w :
  JSFileRegex n = false ->
  loadTopLevelCommands path (pre ++ File n data :: post) w
  = loadTopLevelCommands path (pre ++ post) w
  /\ loadUserCommands path (pre ++ File n data :: post) w
     = loadUserCommands path (pre ++ post) w
  /\ loadMessageCommands path (pre ++ File n data :: post) w
     = loadMessageCommands path (pre ++ post) w
  /\ (MetaFileRegex n = false ->
      forall name parentName,
        loadSubFolderLevelOne path name (pre ++ File n data :: post) w
        = loadSubFolderLevelOne path name (pre ++ post) w
        /\ loadSubFolderLevelTwo path name parentName
             (pre ++ File n data :: post) w
           = loadSubFolderLevelTwo path name parentName (pre ++ post) w).
Proof.
  intros Hjs. unfold_loaders.
  repeat split; try (apply for_of_skip; intros s w'; by rewrite Hjs).
  - unfold mbind at 1 3, load_mbind. rewrite for_of_skip; [done|].
    intros [meta subs] w'. by rewrite H, Hjs.
  - unfold mbind at 1 3, load_mbind. rewrite for_of_skip; [done|].
    intros [meta subs] w'. by rewrite H, Hjs.
Qed.

Lemma other_files_are_ignored_witness :
  loadTopLevelCommands "commands/chat"
    [File "signup.js" (Sample.exporting (ExportChat Sample.signup));
     File "types.d.ts" (Sample.exporting ExportOther)] Sample.world
  = loadTopLevelCommands "commands/chat"
      [File "signup.js" (Sample.exporting (ExportChat Sample.signup))]
      Sample.world.
Proof.
  refine (proj1 (other_files_are_ignored "commands/chat"
                   [File "signup.js"
                      (Sample.exporting (ExportChat Sample.signup))]
                   "types.d.ts" (Sample.exporting ExportOther) []
                   Sample.world _)).
  vm_compute; reflexivity.
Defined.

(** X8.  In a sub-command group directory (the third level) a folder is
    ignored with all it contains: nothing below it is loaded and no error
    is raised. *)
Theorem deeper_folders_are_ignored path name parentName pre folder sub post
    w :
  loadSubFolderLevelTwo path name parentName
    (pre ++ Folder folder sub :: post) w
  = loadSubFolderLevelTwo path name parentName (pre ++ post) w.
Proof.
  unfold loadSubFolderLevelTwo. unfold mbind at 1 3, load_mbind.
  rewrite for_of_skip; [done|]. by intros [meta subs] w'.
Qed.

(** X9.  An entry of the commands folder that is not named [chat],
    [message] or [user] is ignored by [registerCommandsFrom] and
    [registerGuildCommandsFrom], be it a file or a folder. *)
Theorem other_top_level_entries_are_ignored folderPath pre e post guildId
    register token w :
  entry_name e ≠ "chat" -> entry_name e ≠ "message" ->
  entry_name e ≠ "user" ->
  registerCommandsFrom folderPath (pre ++ e :: post) register token w
  = registerCommandsFrom folderPath (pre ++ post) register token w
  /\ registerGuildCommandsFrom folderPath (pre ++ e :: post) guildId register
       token w
     = registerGuildCommandsFrom folderPath (pre ++ post) guildId register
         token w.
Proof.
  intros Hchat%String.eqb_neq Hmessage%String.eqb_neq Huser%String.eqb_neq.
  unfold registerCommandsFrom, registerGuildCommandsFrom,
    load_command_folders.
  split; unfold mbind at 1 3, load_mbind;
    (rewrite for_of_skip; [done|]);
    intros s w'; by rewrite Hchat, Hmessage, Huser.
Qed.

Lemma other_top_level_entries_are_ignored_witness :
  registerCommandsFrom "commands"
    (Folder "pages" [] :: Sample.duplicate_context_tree) true (Some "token")
    Sample.world
  = registerCommandsFrom "commands" Sample.duplicate_context_tree true
      (Some "token") Sample.world.
Proof.
  refine (proj1 (other_top_level_entries_are_ignored "commands" []
                   (Folder "pages" []) Sample.duplicate_context_tree "guild"
                   true (Some "token") Sample.world _ _ _)); discriminate.
Defined.

Lemma append_assoc (a b c : string) : (a +:+ b) +:+ c = a +:+ b +:+ c.
Proof.
  induction a as [|x a IH]; rewrite ?append_nil, ?append_cons; [done|].
  by rewrite IH.
Qed.

Lemma for_of_establishes {A S} (R : World -> World -> Prop) `{!PreOrder R}
    (l : list A) (body : S -> A -> Loader S) x (P : World -> Prop) :
  (forall s y, loader_keeps R (body s y)) ->
  (forall w w1, R w w1 -> P w -> P w1) ->
  x ∈ l ->
  (forall s w s1 w1, body s x w = (Returned s1, w1) -> P w1) ->
  forall s w s' w', for_of l body s w = (Returned s', w') -> P w'.
Proof.
  intros Hkeeps Hmono Hin Hx. induction l as [|y l IH]; intros s w s' w'.
  - by apply elem_of_nil in Hin.
  - rewrite for_of_cons.
    intros (s1 & w1 & Hy & Hrest)%load_bind_returned.
    apply elem_of_cons in Hin as [<-|Hin]; [|by eapply IH].
    apply (Hmono w1); [|by eapply Hx].
    pose proof (loader_keeps_for_of R l body s1 Hkeeps w1) as Hr.
    by rewrite Hrest in Hr.
Qed.

Lemma add_chat_command_returned file prefix data w c w1 :
  add_chat_command file prefix data w = (Returned c, w1) ->
  mod_default data = Some (ExportChat c)
  /\ commandMap (client w) !! (prefix +:+ info_name (commandInfo c)) = None
  /\ commandMap (client w1) !! (prefix +:+ info_name (commandInfo c)) = Some c.
Proof.
  unfold add_chat_command.
  destruct (mod_default data) as [[command| | |]|]; try done.
  unfold mbind, load_mbind, load_get. simpl.
  destruct (commandMap (client w)
              !! (prefix +:+ info_name (commandInfo command))) eqn:Hfree;
    [done|].
  intros [= <- <-]. simpl. by rewrite lookup_insert_eq.
Qed.

(** A command is registered under [key]. *)
Lemma registered_mono data (key : SlashCommand -> string) w w1 :
  chat_entries_kept w w1 ->
  (exists c, mod_default data = Some (ExportChat c)
             /\ commandMap (client w) !! key c = Some c) ->
  exists c, mod_default data = Some (ExportChat c)
            /\ commandMap (client w1) !! key c = Some c.
Proof. intros Hkept (c & Hc & Hk). exists c. split; [done|]. by apply Hkept. Qed.

Lemma level_two_keeps_entries path name parentName entries :
  loader_keeps chat_entries_kept
    (loadSubFolderLevelTwo path name parentName entries).
Proof.
  pose proof add_chat_command_keeps_entries.
  unfold_loaders. loader_keeps.
Qed.

Lemma level_one_keeps_entries path name entries :
  loader_keeps chat_entries_kept (loadSubFolderLevelOne path name entries).
Proof.
  pose proof add_chat_command_keeps_entries.
  unfold_loaders. loader_keeps.
Qed.

Lemma level_two_registers path name parentName entries w b w' n data :
  loadSubFolderLevelTwo path name parentName entries w = (Returned b, w') ->
  File n data ∈ entries ->
  MetaFileRegex n = false -> JSFileRegex n = true ->
  exists c,
    mod_default data = Some (ExportChat c)
    /\ commandMap (client w')
       !! (parentName +:+ "." +:+ name +:+ "." +:+ info_name (commandInfo c))
       = Some c.
Proof.
  unfold loadSubFolderLevelTwo.
  intros ([meta subs] & w1 & Hloop & [= _ <-])%load_bind_returned
    Hin Hmeta Hjs.
  pose proof add_chat_command_keeps_entries.
  eapply (for_of_establishes chat_entries_kept _ _ _
            (fun w => exists c, mod_default data = Some (ExportChat c) /\ _)
            _ (registered_mono data _) Hin _ _ _ _ _ Hloop).
  Unshelve.
  - intros [m s] y. loader_keeps.
  - intros [m s] w0 s1 w2. simpl. rewrite Hmeta, Hjs.
    intros (c & w3 & Hadd & [= _ <-])%load_bind_returned.
    apply add_chat_command_returned in Hadd as (Hc & _ & Hk).
    exists c. split; [done|]. by rewrite !append_assoc in Hk.
Qed.

Lemma level_one_registers path name entries w b w' :
  loadSubFolderLevelOne path name entries w = (Returned b, w') ->
  (forall n data,
     File n data ∈ entries ->
     MetaFileRegex n = false -> JSFileRegex n = true ->
     exists c,
       mod_default data = Some (ExportChat c)
       /\ commandMap (client w')
          !! (name +:+ "." +:+ info_name (commandInfo c)) = Some c)
  /\ (forall group sub n data,
        Folder group sub ∈ entries -> File n data ∈ sub ->
        MetaFileRegex n = false -> JSFileRegex n = true ->
        exists c,
          mod_default data = Some (ExportChat c)
          /\ commandMap (client w')
             !! (name +:+ "." +:+ group +:+ "."
                 +:+ info_name (commandInfo c)) = Some c).
Proof.
  unfold loadSubFolderLevelOne.
  intros ([meta subs] & w1 & Hloop & [= _ <-])%load_bind_returned.
  pose proof add_chat_command_keeps_entries.
  pose proof level_two_keeps_entries.
  split.
  - intros n data Hin Hmeta Hjs.
    eapply (for_of_establishes chat_entries_kept _ _ _
              (fun w => exists c, mod_default data = Some (ExportChat c) /\ _)
              _ (registered_mono data _) Hin _ _ _ _ _ Hloop).
    Unshelve.
    + intros [m s] y. loader_keeps.
    + intros [m s] w0 s1 w2. simpl. rewrite Hmeta, Hjs.
      intros (c & w3 & Hadd & [= _ <-])%load_bind_returned.
      apply add_chat_command_returned in Hadd as (Hc & _ & Hk).
      exists c. split; [done|]. by rewrite !append_assoc in Hk.
  - intros group sub n data Hin Hfile Hmeta Hjs.
    eapply (for_of_establishes chat_entries_kept _ _ _
              (fun w => exists c, mod_default data = Some (ExportChat c) /\ _)
              _ (registered_mono data _) Hin _ _ _ _ _ Hloop).
    Unshelve.
    + intros [m s] y. loader_keeps.
    + intros [m s] w0 s1 w2. simpl.
      intros (g & w3 & Hgroup & [= _ <-])%load_bind_returned.
      by eapply level_two_registers.
Qed.

(** X10.  After a successful load of the chat directory every command of a
    source file is in the chat registry under its dotted name: [name] for
    a file of the directory, [group.name] for a file of a folder [group],
    [group.subgroup.name] for a file of a folder [subgroup] of [group]
    (meta files apart in the folders). *)
Theorem loaded_chat_commands_are_registered path entries w cd w' :
  loadTopLevelCommands path entries w = (Returned cd, w') ->
  (forall n data,
     File n data ∈ entries -> JSFileRegex n = true ->
     exists c,
       mod_default data = Some (ExportChat c)
       /\ commandMap (client w') !! info_name (commandInfo c) = Some c)
  /\ (forall group sub n data,
        Folder group sub ∈ entries -> File n data ∈ sub ->
        MetaFileRegex n = false -> JSFileRegex n = true ->
        exists c,
          mod_default data = Some (ExportChat c)
          /\ commandMap (client w')
             !! (group +:+ "." +:+ info_name (commandInfo c)) = Some c)
  /\ (forall group sub subgroup sub2 n data,
        Folder group sub ∈ entries -> Folder subgroup sub2 ∈ sub ->
        File n data ∈ sub2 ->
        MetaFileRegex n = false -> JSFileRegex n = true ->
        exists c,
          mod_default data = Some (ExportChat c)
          /\ commandMap (client w')
             !! (group +:+ "." +:+ subgroup +:+ "."
                 +:+ info_name (commandInfo c)) = Some c).
Proof.
  unfold loadTopLevelCommands. intros Hloop.
  pose proof add_chat_command_keeps_entries.
  pose proof level_one_keeps_entries.
  assert (forall (s : list CommandBuilder) y,
            loader_keeps chat_entries_kept
              (match y with
               | File file data =>
                   if JSFileRegex file
                   then add_chat_command (join path file) "" data
                        ≫= λ command,
                             mret (s ++ [SlashCommandBuilder
                                           (commandInfo command)])
                   else mret s
               | Folder folder entries0 =>
                   loadSubFolderLevelOne (join path folder) folder entries0
                   ≫= λ builder, mret (s ++ [builder])
               end)) as Hbody by (intros s y; loader_keeps).
  split; [|split].
  - intros n data Hin Hjs.
    eapply (for_of_establishes chat_entries_kept _ _ _
              (fun w => exists c, mod_default data = Some (ExportChat c) /\ _)
              Hbody (registered_mono data _) Hin _ _ _ _ _ Hloop).
    Unshelve.
    intros s w0 s1 w2. simpl. rewrite Hjs.
    intros (c & w3 & Hadd & [= _ <-])%load_bind_returned.
    apply add_chat_command_returned in Hadd as (Hc & _ & Hk).
    exists c. by split.
  - intros group sub n data Hin Hfile Hmeta Hjs.
    eapply (for_of_establishes chat_entries_kept _ _ _
              (fun w => exists c, mod_default data = Some (ExportChat c) /\ _)
              Hbody (registered_mono data _) Hin _ _ _ _ _ Hloop).
    Unshelve.
    intros s w0 s1 w2. simpl.
    intros (b & w3 & Hone & [= _ <-])%load_bind_returned.
    apply level_one_registers in Hone as [Hfiles _]. by apply (Hfiles n).
  - intros group sub subgroup sub2 n data Hin Hsub Hfile Hmeta Hjs.
    eapply (for_of_establishes chat_entries_kept _ _ _
              (fun w => exists c, mod_default data = Some (ExportChat c) /\ _)
              Hbody (registered_mono data _) Hin _ _ _ _ _ Hloop).
    Unshelve.
    intros s w0 s1 w2. simpl.
    intros (b & w3 & Hone & [= _ <-])%load_bind_returned.
    apply level_one_registers in Hone as [_ Hgroups].
    by apply (Hgroups subgroup sub2 n).
Qed.

Lemma loaded_chat_commands_are_registered_witness :
  exists cd w',
    loadTopLevelCommands "commands/chat" Sample_files.nested_chat Sample.world
    = (Returned cd, w')
    /\ exists c,
         Some (ExportChat Sample.enroll) = Some (ExportChat c)
         /\ commandMap (client w') !! "admin.users.enroll" = Some c.
Proof.
  eexists _, _. split; [vm_compute; reflexivity|].
  match goal with
  | |- context [client ?w'] =>
      pose proof (loaded_chat_commands_are_registered "commands/chat"
                    Sample_files.nested_chat Sample.world _ w'
                    ltac:(vm_compute; reflexivity)) as (_ & _ & H)
  end.
  destruct (H "admin" Sample_files.admin "users" Sample_files.users
              "enroll.js"
              (Sample.exporting (ExportChat Sample.enroll)))
    as (c & Hc & Hk); try (vm_compute; reflexivity).
  - apply elem_of_cons. right. apply elem_of_cons. by left.
  - do 2 (apply elem_of_cons; right). apply elem_of_cons. by left.
  - apply elem_of_cons. by left.
  - injection Hc as <-. exists Sample.enroll. split; [reflexivity|exact Hk].
Defined.

#[local] Instance settings_kept_preorder : PreOrder settings_kept.
Proof.
  split; [by intros w|]. unfold settings_kept. intros a b c ??. congruence.
Qed.

Lemma load_command_folders_keeps_settings folderPath tree :
  loader_keeps settings_kept (load_command_folders folderPath tree).
Proof.
  assert (forall file prefix data,
            loader_keeps settings_kept (add_chat_command file prefix data)).
  { intros file prefix data w.
    by destruct (add_chat_command_only_chat file prefix data w)
      as (_ & _ & ?). }
  assert (forall name command,
            loader_keeps settings_kept
              (load_modify (set_userContextMenuMap name command)))
    by (by intros name command w).
  assert (forall name command,
            loader_keeps settings_kept
              (load_modify (set_messageContextMenuMap name command)))
    by (by intros name command w).
  unfold_loaders. loader_keeps.
Qed.

(** X11.  When [registerCommandsFrom] returns, it has made one
    registration call if [register] is set and the token is given and not
    empty, and none otherwise; the call goes to the route of the
    connector's application id and its body is the list of descriptors
    the traversal produced. *)
Theorem registration_call folderPath tree register token w w' :
  registerCommandsFrom folderPath tree register token w = (Returned tt, w') ->
  exists commandData,
    load_command_folders folderPath tree w
    = (Returned commandData,
       {| client := client w'; rest_puts := rest_puts w |})
    /\ rest_puts w'
       = rest_puts w
         ++ (if register && truthy_token token
             then [ {| put_route :=
                         applicationCommands
                           (getApplicationId (connector (client w)));
                       put_body := commandData |} ]
             else []).
Proof.
  unfold registerCommandsFrom.
  intros (cd & w1 & Hload & Hput)%load_bind_returned.
  pose proof (keeps_puts_load_command_folders folderPath tree w) as Hputs.
  pose proof (load_command_folders_keeps_settings folderPath tree w)
    as Hsettings.
  rewrite Hload in Hputs, Hsettings. simpl in *.
  assert (connector (client w1) = connector (client w)) as Hconn
    by (unfold settings_kept, settings in Hsettings; congruence).
  exists cd.
  destruct (register && truthy_token token).
  - unfold mbind, load_mbind, load_get, rest_put in Hput. simpl in Hput.
    injection Hput as _ <-. simpl. rewrite Hputs, Hconn. split; [|done].
    rewrite Hload. destruct w1. simpl in *. by subst.
  - injection Hput as <-. rewrite app_nil_r. split; [|done].
    rewrite Hload. destruct w1. simpl in *. by subst.
Qed.

Lemma registration_call_witness :
  exists w',
    registerCommandsFrom "commands" Sample_files.commands_folder true
      (Some "") Sample.world = (Returned tt, w')
    /\ rest_puts w' = [].
Proof.
  eexists. split; [vm_compute; reflexivity|].
  match goal with
  | |- rest_puts ?w' = _ =>
      destruct (registration_call "commands" Sample_files.commands_folder
                  true (Some "") Sample.world w'
                  ltac:(vm_compute; reflexivity)) as (cd & _ & H)
  end.
  exact H.
Defined.










(** ** More about validation and dispatch *)

Lemma rejection_none_autocomplete this interaction skipRequiredCheck o :
  isCommandInteraction interaction = false ->
  rejection_message this interaction skipRequiredCheck o = None.
Proof.
  intros Hauto. unfold rejection_message. rewrite Hauto.
  destruct (raw_value _ _ _) as [[]|]; try done;
    by destruct (validatorsMap this !! opt_name o).
Qed.

Lemma omap_all_none {A B} (f : A -> option B) (l : list A) :
  (forall x, f x = None) -> omap f l = [].
Proof. intros Hf. induction l as [|x l IH]; simpl; [done|]. by rewrite Hf. Qed.

(** X14.  On an interaction that is not a command interaction the
    validation pass never returns an error list: it returns the values
    object or throws. *)
Theorem autocomplete_never_returns_errors this interaction skipRequiredCheck :
  isCommandInteraction interaction = false ->
  forall errors,
    outcome (validateAndTransformOptions this interaction skipRequiredCheck)
    ≠ Returned (Errors errors).
Proof.
  intros Hauto errors. unfold outcome.
  destruct (validateAndTransformOptions _ _ _) as [r t] eqn:Hrun. simpl.
  intros ->. apply validate_returned_messages in Hrun as [v Hr].
  rewrite omap_all_none in Hr; [done|].
  intros o. by apply rejection_none_autocomplete.
Qed.

Lemma autocomplete_never_returns_errors_witness :
  outcome (validateAndTransformOptions Sample.signup Sample.autocompletion
             true)
  ≠ Returned (Errors ["age must be positive"; "unknown color"]).
Proof.
  apply (autocomplete_never_returns_errors Sample.signup
           Sample.autocompletion true).
  reflexivity.
Defined.

(** X15.  When the getter of an option throws (a required option that is
    missing, a value of another type), the validation pass ends there with
    that exception: no validator or transformer of this or a later option
    is called. *)
Theorem extraction_error_aborts this interaction skipRequiredCheck
    pre o post errors values t err :
  info_options (commandInfo this) = pre ++ o :: post ->
  reaches this interaction skipRequiredCheck pre (errors, values) t ->
  raw_value interaction skipRequiredCheck o = Thrown err ->
  validateAndTransformOptions this interaction skipRequiredCheck
  = (Thrown err, t).
Proof.
  unfold reaches. intros Hopts Hpre Hraw.
  unfold validateAndTransformOptions. rewrite Hopts.
  apply eff_bind_thrown. rewrite <-(app_nil_r t).
  apply (loop_aborts _ _ _ _ _ _ _ _ _ _ _ Hpre).
  unfold validate_option. unfold raw_value in Hraw. by rewrite Hraw.
Qed.

Lemma extraction_error_aborts_witness :
  validateAndTransformOptions Sample.signup Sample_files.mistyped false
  = (Thrown (TypeError "Option is of the wrong type"), []).
Proof.
  apply (extraction_error_aborts Sample.signup Sample_files.mistyped false
           [] Sample.age [Sample.name; Sample.color] [] ∅ []);
    reflexivity.
Defined.

Lemma step_transformer_throws this interaction skipRequiredCheck o e v x
    transform err :
  raw_value interaction skipRequiredCheck o = Returned x -> x ≠ VNull ->
  lets_through (validator_verdict this interaction o x) = true ->
  transformersMap this !! opt_name o = Some transform ->
  transform x = Thrown err ->
  validate_option this interaction skipRequiredCheck o (e, v)
  = (Thrown err,
     calls_before_transformer (validator_verdict this interaction o x) o x
     ++ [EvTransformer (opt_name o) x]).
Proof.
  unfold validate_option, run_validator, raw_value, validator_verdict.
  intros -> Hx Hthrough Htr Herr. eff_unfold. simpl.
  destruct (validatorsMap this !! opt_name o) as [validate|];
    [destruct (isCommandInteraction interaction);
     [destruct (validate interaction x) as [r|[]]; simpl in *;
      try done; [destruct (is_string r); [done|]|]|]|];
    destruct x; try done; simpl;
    (destruct (transformersMap this !! opt_name o) as [f|]; [|done]);
    injection Htr as ->; by rewrite Herr.
Qed.

(** X16.  When the transformer of an option throws, the validation pass
    ends there with that exception, right after the transformer call; this
    is so after a validator that accepted the value and also after one that
    threw a validation error, whose message is then lost. *)
Theorem transformer_error_aborts this interaction skipRequiredCheck
    pre o post errors values t x transform err :
  info_options (commandInfo this) = pre ++ o :: post ->
  reaches this interaction skipRequiredCheck pre (errors, values) t ->
  raw_value interaction skipRequiredCheck o = Returned x ->
  x ≠ VNull ->
  lets_through (validator_verdict this interaction o x) = true ->
  transformersMap this !! opt_name o = Some transform ->
  transform x = Thrown err ->
  validateAndTransformOptions this interaction skipRequiredCheck
  = (Thrown err,
     t ++ calls_before_transformer (validator_verdict this interaction o x)
            o x
       ++ [EvTransformer (opt_name o) x]).
Proof.
  unfold reaches. intros Hopts Hpre Hraw Hx Hthrough Htr Herr.
  unfold validateAndTransformOptions. rewrite Hopts.
  apply eff_bind_thrown.
  apply (loop_aborts _ _ _ _ _ _ _ _ _ _ _ Hpre).
  by apply (step_transformer_throws _ _ _ _ _ _ _ transform).
Qed.

Lemma transformer_error_aborts_witness :
  validateAndTransformOptions Sample.enroll_days Sample.submission false
  = (Thrown (Error "negative age"),
     [EvValidator "age" (VNumber (-1)); EvTransformer "age" (VNumber (-1))]).
Proof.
  apply (transformer_error_aborts Sample.enroll_days Sample.submission false
           [] (Sample.opt "age" INTEGER (Some Sample.positive_or_throw)
                 (Some Sample.years_to_days))
           [Sample.name] [] ∅ [] (VNumber (-1)) Sample.years_to_days);
    try reflexivity. discriminate.
Defined.

(** X17.  Only a string rejects.  A validator that returns anything else,
    [false] included, accepts the value: no message is collected, the
    transformer (if any) is called, and what it returns (the value itself
    without transformer) is assigned to the values object under the name
    of the option.  The iteration ends as this assignment does; on a
    values object that inherits from [Object.prototype], and for a name
    other than [__proto__], the assignment creates or updates the entry of
    the option. *)
Theorem non_string_verdict_accepts this interaction skipRequiredCheck
    pre o errors values t x validate r y values' :
  reaches this interaction skipRequiredCheck pre (errors, values) t ->
  raw_value interaction skipRequiredCheck o = Returned x ->
  x ≠ VNull ->
  validatorsMap this !! opt_name o = Some validate ->
  isCommandInteraction interaction = true ->
  validate interaction x = Returned r ->
  is_string r = None ->
  expected_entry this interaction skipRequiredCheck o = Some y ->
  object_set interaction (opt_name o) y values = Returned values' ->
  reaches this interaction skipRequiredCheck (pre ++ [o])
    (errors, values')
    (t ++ EvValidator (opt_name o) x
          :: match transformersMap this !! opt_name o with
             | Some _ => [EvTransformer (opt_name o) x]
             | None => []
             end)
  /\ (opt_name o ≠ "__proto__" -> proto values = ObjectPrototype ->
      values' = define_own (opt_name o) y values).
Proof.
  unfold reaches. intros Hpre Hraw Hx Hmap Hcmd Hv Hr Hy Hset. split.
  - apply (loop_snoc_returned _ _ _ _ _ _ _ _ _ _ Hpre).
    unfold validate_option, run_validator, expected_entry in *.
    unfold raw_value in *. rewrite Hraw in *. rewrite Hmap, Hcmd.
    eff_unfold. simpl. rewrite Hv, Hr.
    destruct x; try done; simpl;
      (destruct (transformersMap this !! opt_name o) as [f|];
       [destruct (f _); simplify_eq; simpl; by rewrite Hset
       |simplify_eq; simpl; by rewrite Hset]).
  - intros Hn Hplain.
    rewrite (object_set_plain interaction _ _ _ Hn Hplain) in Hset.
    by injection Hset as <-.
Qed.

Lemma non_string_verdict_accepts_witness :
  reaches Sample_files.guarded Sample.submission false
    [Sample.opt "age" INTEGER (Some Sample_files.refuse) (Some Sample.double)]
    ([], define_own "age" (VNumber (-2)) ∅)
    [EvValidator "age" (VNumber (-1)); EvTransformer "age" (VNumber (-1))].
Proof.
  apply (non_string_verdict_accepts Sample_files.guarded Sample.submission
           false []
           (Sample.opt "age" INTEGER (Some Sample_files.refuse)
              (Some Sample.double))
           [] ∅ [] (VNumber (-1)) Sample_files.refuse (VBool false)
           (VNumber (-2)) (define_own "age" (VNumber (-2)) ∅));
    try reflexivity. discriminate.
Defined.

Lemma validate_option_relaxed this interaction o st :
  validate_option (relax_required this) interaction true (without_required o)
    st
  = validate_option this interaction true o st.
Proof. reflexivity. Qed.

Lemma validate_loop_relaxed this interaction l st :
  validate_loop (relax_required this) interaction true
    (without_required <$> l) st
  = validate_loop this interaction true l st.
Proof.
  revert st. induction l as [|o l IH]; intros st; [done|].
  rewrite fmap_cons. simpl. rewrite validate_option_relaxed.
  by apply eff_bind_ext.
Qed.

(** X18.  [handleCommand] never enforces [required]: it passes the
    connector where the method expects [skipRequiredCheck], so every getter
    is asked with [required = false].  Dispatching to a command gives the
    same outcome and the same calls as dispatching to the same command with
    the [required] member removed from all its options. *)
Theorem handleCommand_ignores_required this this' name interaction :
  commandMap this' !! name = relax_required <$> commandMap this !! name ->
  chatCommandMiddleware this' = chatCommandMiddleware this ->
  connector this' = connector this ->
  handleCommand this' name interaction = handleCommand this name interaction.
Proof.
  intros Hmap Hmw Hconn. unfold handleCommand. rewrite Hmap, Hmw, Hconn.
  destruct (commandMap this !! name) as [command|]; [|done]. simpl.
  unfold validateAndTransformOptions. simpl.
  by rewrite validate_loop_relaxed.
Qed.

Lemma handleCommand_ignores_required_witness :
  handleCommand (set_commandMap "strict"
                   (relax_required Sample_files.strict) Sample.fresh)
    "strict" Sample.submission
  = handleCommand (set_commandMap "strict" Sample_files.strict Sample.fresh)
      "strict" Sample.submission.
Proof.
  apply handleCommand_ignores_required; [|reflexivity|reflexivity].
  simpl. by rewrite !lookup_insert_eq.
Defined.

(** X19.  [handleCommand] answers [false] exactly when no command is
    registered under the name. *)
Theorem handleCommand_false_iff this name interaction :
  outcome (handleCommand this name interaction) = Returned (VBool false)
  <-> commandMap this !! name = None.
Proof.
  unfold handleCommand, outcome. split.
  - destruct (commandMap this !! name) as [command|]; [|done].
    eff_unfold.
    destruct (validateAndTransformOptions command interaction true)
      as [[[errors|values]|e] t]; simpl; [| |done].
    + by destruct (replyToInteraction _ _ _ _) as [[]|e].
    + by destruct (pipeline_execute (chatCommandMiddleware this)
                     (invoke_run (run command)) interaction values)
        as [[[]|e] t'].
  - by intros ->.
Qed.

Lemma last_declared_snoc {V} (sel : OptionData -> option V) n l o :
  last_declared sel n (l ++ [o])
  = match (if decide (opt_name o = n) then sel o else None) with
    | Some v => Some v
    | None => last_declared sel n l
    end.
Proof.
  unfold last_declared. rewrite omap_app. simpl.
  destruct (if decide (opt_name o = n) then sel o else None) as [v|].
  - by rewrite last_snoc.
  - by rewrite app_nil_r.
Qed.

Lemma set_opt_lookup {V} (k n : string) (o : option V) m :
  set_opt k o m !! n
  = match (if decide (k = n) then o else None) with
    | Some v => Some v
    | None => m !! n
    end.
Proof.
  unfold set_opt. destruct o as [v|]; [|by destruct (decide _)].
  destruct (decide (k = n)) as [->|Hne].
  - by rewrite lookup_insert_eq.
  - by rewrite lookup_insert_ne.
Qed.

Lemma constructor_fold l n :
  let maps :=
    fold_left
      (fun '(vm, tm, am) option =>
         (set_opt (opt_name option) (opt_validator option) vm,
          set_opt (opt_name option) (opt_transformer option) tm,
          set_opt (opt_name option) (opt_onAutocomplete option) am))
      l ((∅ : gmap string Validator), (∅ : gmap string Transformer),
         (∅ : gmap string OptionAutocomplete)) in
  maps.1.1 !! n = last_declared opt_validator n l
  /\ maps.1.2 !! n = last_declared opt_transformer n l
  /\ maps.2 !! n = last_declared opt_onAutocomplete n l.
Proof.
  induction l as [|o l IH] using rev_ind; [done|].
  rewrite fold_left_app. simpl in *.
  destruct (fold_left _ l _) as [[vm tm] am]. simpl in *.
  destruct IH as (Hv & Ht & Ha).
  rewrite !last_declared_snoc, !set_opt_lookup, Hv, Ht, Ha. done.
Qed.

(** X20.  The constructor indexes validators, transformers and per-option
    autocomplete handlers by option name: under a name, each map holds the
    member of the last declared option of that name that has one, and
    nothing if no such option has one. *)
Theorem constructor_maps info handlers n :
  validatorsMap (new_SlashCommand info handlers) !! n
  = last_declared opt_validator n (info_options info)
  /\ transformersMap (new_SlashCommand info handlers) !! n
     = last_declared opt_transformer n (info_options info)
  /\ autocompleteMap (new_SlashCommand info handlers) !! n
     = last_declared opt_onAutocomplete n (info_options info).
Proof. apply constructor_fold. Qed.

(** X21.  A command loaded from the user directory, whose descriptor is
    sent with type 2 ([ApplicationCommandType.User]), is looked up by
    [handleContextMenu] when the type is 3: with type 2 the dispatcher
    reads the message registry, and answers [false] if that one has no
    command of the name. *)
Theorem user_commands_answer_to_type_3 path entries w cd w' pipeline c
    interaction :
  loadUserCommands path entries w = (Returned cd, w') ->
  c ∈ context_commands exported_user entries ->
  ContextMenuCommandBuilder (cm_name c) ApplicationCommandType_User ∈ cd
  /\ outcome (handleContextMenu (client w') pipeline (cm_name c)
                ApplicationCommandType_Message interaction)
     = Returned (VBool true)
  /\ (messageContextMenuMap (client w) !! cm_name c = None ->
      handleContextMenu (client w') pipeline (cm_name c)
        ApplicationCommandType_User interaction
      = (Returned (VBool false), [])).
Proof.
  intros Hload Hc.
  pose proof (user_loading_only_user path entries w) as (_ & Hmsg & _).
  rewrite Hload in Hmsg. simpl in Hmsg.
  apply loadUserCommands_returned in Hload as [-> Hmap].
  split; [|split].
  - apply list_elem_of_fmap. by exists c.
  - unfold handleContextMenu. simpl.
    destruct (insert_all_registers _ (userContextMenuMap (client w)) c Hc)
      as [c' Hc'].
    by rewrite Hmap, Hc'.
  - intros Hnone. unfold handleContextMenu. simpl. by rewrite Hmsg, Hnone.
Qed.

Lemma user_commands_answer_to_type_3_witness :
  handleContextMenu
    (client (loadUserCommands "commands/user"
               [File "ping.js"
                  (Sample.exporting (ExportUser Sample.ping_first))]
               Sample.world).2)
    [] "Ping" 2 Sample.submission
  = (Returned (VBool false), []).
Proof.
  destruct (loadUserCommands "commands/user"
              [File "ping.js"
                 (Sample.exporting (ExportUser Sample.ping_first))]
              Sample.world) as [[cd|e] w'] eqn:Hload;
    [|vm_compute in Hload; discriminate].
  refine (proj2 (proj2 (user_commands_answer_to_type_3 _ _ _ _ _ []
                          Sample.ping_first Sample.submission Hload _)) _).
  - apply elem_of_cons. by left.
  - reflexivity.
Defined.

(** X22.  [MetaFileRegex] is not anchored at the start of the name: every
    name that ends in [_meta] followed by a source extension is a meta
    file, whatever comes before.  In a sub-command folder such a file is
    never loaded as a command; if what it exports fails
    [isCommandGroupMetadata], the file is ignored altogether. *)
Theorem meta_files_by_name path name parentName pre n data post w base ext :
  ext ∈ source_extensions ->
  MetaFileRegex (base +:+ "_meta" +:+ ext) = true
  /\ (MetaFileRegex n = true ->
      isCommandGroupMetadata (mod_exports data) = false ->
      loadSubFolderLevelOne path name (pre ++ File n data :: post) w
      = loadSubFolderLevelOne path name (pre ++ post) w
      /\ loadSubFolderLevelTwo path name parentName
           (pre ++ File n data :: post) w
         = loadSubFolderLevelTwo path name parentName (pre ++ post) w).
Proof.
  intros Hin. split.
  - unfold source_extensions in Hin.
    repeat (apply elem_of_cons in Hin as [->|Hin]);
      try (by apply elem_of_nil in Hin).
    + apply (meta_name base "js"); [set_solver|simpl; lia|reflexivity].
    + apply (meta_name base "ts"); [set_solver|simpl; lia|reflexivity].
    + apply (meta_name base "jsx"); [set_solver|simpl; lia|reflexivity].
    + apply (meta_name base "tsx"); [set_solver|simpl; lia|reflexivity].
  - intros Hmeta Hcheck.
    unfold loadSubFolderLevelOne, loadSubFolderLevelTwo.
    split; unfold mbind at 1 3, load_mbind;
      (rewrite for_of_skip; [done|]);
      intros [meta subs] w'; by rewrite Hmeta, Hcheck.
Qed.

Lemma meta_files_by_name_witness :
  MetaFileRegex ("get" +:+ "_meta" +:+ ".ts") = true.
Proof.
  refine (proj1 (meta_files_by_name "" "" "" [] "" Sample_files.group_meta
                   [] Sample.world "get" ".ts" _)).
  unfold source_extensions. set_solver.
Defined.

(** ** Pages and modal templates *)

Section pages_facts.
Context (DeserializeStateFn ModalHandler : Type) (DEFAULT_PAGE_ID : string).

Lemma register_page_step path n data rest pageMap :
  JSFileRegex n = true ->
  match page_of_file DeserializeStateFn DEFAULT_PAGE_ID data with
  | Some s =>
      registerPagesFrom DeserializeStateFn DEFAULT_PAGE_ID path
        (FlatFile _ _ n data :: rest) pageMap
      = registerPagesFrom DeserializeStateFn DEFAULT_PAGE_ID path rest
          (<[page_pageId _ (page _ s) := s]> pageMap)
  | None =>
      exists e,
        registerPagesFrom DeserializeStateFn DEFAULT_PAGE_ID path
          (FlatFile _ _ n data :: rest) pageMap
        = (Thrown e, pageMap)
  end.
Proof.
  intros Hjs. unfold page_of_file. simpl. rewrite Hjs.
  destruct (flat_default _ _ data) as [[p|]|]; try by eexists.
  destruct (page_pageId _ p =? DEFAULT_PAGE_ID)%string; [by eexists|].
  destruct (page_deserializeState _ p) as [d|]; [done|].
  destruct (flat_deserializeState _ _ data) as [d|]; [done|by eexists].
Qed.

Lemma register_modal_step path n data rest modalMap :
  JSFileRegex n = true ->
  match modal_of_file DeserializeStateFn ModalHandler data with
  | Some modal =>
      registerModalsFrom DeserializeStateFn ModalHandler path
        (FlatFile _ _ n data :: rest) modalMap
      = registerModalsFrom DeserializeStateFn ModalHandler path rest
          (<[customId _ modal := modal]> modalMap)
  | None =>
      exists e,
        registerModalsFrom DeserializeStateFn ModalHandler path
          (FlatFile _ _ n data :: rest) modalMap
        = (Thrown e, modalMap)
  end.
Proof.
  intros Hjs. unfold modal_of_file. simpl. rewrite Hjs.
  destruct (flat_default _ _ data) as [[modal|]|]; try done; by eexists.
Qed.

(** X23.  [registerPagesFrom] returns exactly when every entry is a file
    and every source file default-exports a page that has an id of its own
    and a deserializer, static or exported by the file.  However it ends,
    the page map then holds, besides what it held, the pages of the entries
    before the first offending one, each under its page id with the static
    deserializer in preference to the exported one. *)
Theorem pages_load path entries pageMap :
  ((registerPagesFrom DeserializeStateFn DEFAULT_PAGE_ID path entries
      pageMap).1 = Returned tt
   <-> forallb (page_entry_ok DeserializeStateFn DEFAULT_PAGE_ID) entries
       = true)
  /\ (registerPagesFrom DeserializeStateFn DEFAULT_PAGE_ID path entries
        pageMap).2
     = insert_pages DeserializeStateFn
         (pages_of DeserializeStateFn DEFAULT_PAGE_ID
            (passing_prefix
               (page_entry_ok DeserializeStateFn DEFAULT_PAGE_ID) entries))
         pageMap.
Proof.
  revert pageMap. induction entries as [|[n data|n] entries IH];
    intros pageMap; [done| |done].
  destruct (JSFileRegex n) eqn:Hjs.
  - pose proof (register_page_step path n data entries pageMap Hjs) as Hstep.
    destruct (page_of_file _ _ data) as [s|] eqn:Hpage.
    + rewrite Hstep. repeat (simpl; rewrite ?Hjs, ?Hpage). apply IH.
    + destruct Hstep as [e ->]. by repeat (simpl; rewrite ?Hjs, ?Hpage).
  - repeat (simpl; rewrite ?Hjs). apply IH.
Qed.

(** X24.  [registerModalsFrom] returns exactly when every entry is a file
    and every source file default-exports a modal template; however it
    ends, the modal map holds, besides what it held, the templates of the
    entries before the first offending one, each under its custom id. *)
Theorem modals_load path entries modalMap :
  ((registerModalsFrom DeserializeStateFn ModalHandler path entries
      modalMap).1 = Returned tt
   <-> forallb (modal_entry_ok DeserializeStateFn ModalHandler) entries
       = true)
  /\ (registerModalsFrom DeserializeStateFn ModalHandler path entries
        modalMap).2
     = insert_modals ModalHandler
         (modals_of DeserializeStateFn ModalHandler
            (passing_prefix (modal_entry_ok DeserializeStateFn ModalHandler)
               entries))
         modalMap.
Proof.
  revert modalMap. induction entries as [|[n data|n] entries IH];
    intros modalMap; [done| |done].
  destruct (JSFileRegex n) eqn:Hjs.
  - pose proof (register_modal_step path n data entries modalMap Hjs)
      as Hstep.
    destruct (modal_of_file _ _ data) as [s|] eqn:Hmodal.
    + rewrite Hstep. repeat (simpl; rewrite ?Hjs, ?Hmodal). apply IH.
    + destruct Hstep as [e ->]. by repeat (simpl; rewrite ?Hjs, ?Hmodal).
  - repeat (simpl; rewrite ?Hjs). apply IH.
Qed.
End pages_facts.
